(** * FPGA DFL error reporting: FME global errors and AFU port errors

    A shallow embedding of [drivers/fpga/dfl-fme-error.c] (FME global error
    reporting) and of the AFU port error reporting driver, together with the
    properties of their clear / inject / report operations.

    The drivers are sequences of 64-bit MMIO loads and stores bracketed by a
    mutex.  They are embedded as programs of a small state-and-trace monad:
    the state is the register file of the two error features plus the state
    of the port controller, the trace is the list of externally visible
    actions in program order. *)

From Stdlib Require Import ZArith List String Bool Lia.
Import ListNotations.
Local Open Scope Z_scope.

(* ================================================================== *)
(** ** Kernel bit-field helpers and error numbers *)

Module Bits.

Definition U64_MAX : Z := 2 ^ 64 - 1.

(** [~x] on an [unsigned long long]. *)
Definition not64 (x : Z) : Z := Z.lxor x U64_MAX.

(** Modelled from the spec: [GENMASK_ULL(h, l)] of linux/bits.h, the
    contiguous mask of bits [l..h] (the spec's "all-ones" for (63,0) and
    "low 3 bits" for (2,0)). *)
Definition GENMASK_ULL (h l : Z) : Z :=
  Z.land (U64_MAX - Z.shiftl 1 l + 1) (Z.shiftr U64_MAX (64 - 1 - h)).

(** Modelled from the spec: [BIT_ULL(n)] of linux/bits.h, the single
    bit [n] (the spec's "exactly the MBP-error bit"). *)
Definition BIT_ULL (n : Z) : Z := Z.shiftl 1 n.

(** Modelled from the spec: [__bf_shf] of linux/bitfield.h, the index of
    the lowest set bit of a field mask. *)
Definition __bf_shf (mask : Z) : Z := Z.log2 (Z.land mask (- mask)).

(** Modelled from the spec: [FIELD_GET] of linux/bitfield.h, the
    extraction of a bit-field of a register value. *)
Definition FIELD_GET (mask reg : Z) : Z :=
  Z.shiftr (Z.land reg mask) (__bf_shf mask).

(** Modelled from the spec: [FIELD_PREP] of linux/bitfield.h, the
    placement of a value into a bit-field. *)
Definition FIELD_PREP (mask val : Z) : Z :=
  Z.land (Z.shiftl val (__bf_shf mask)) mask.

(** Modelled from the spec: the errno values behind the spec's
    [Mismatch] / [InvalidArgument] ([EINVAL]) and [DevicePowerGated]
    ([EBUSY]), from errno-base.h. *)
Definition EINVAL : Z := 22.
Definition EBUSY : Z := 16.

End Bits.
Export Bits.

(* ================================================================== *)
(** ** Platform: what the two files take from the rest of the kernel *)

(** The pieces of the DFL framework and of the AFU main driver that the two
    files call but do not define.  The port controller ([__port_disable],
    [__port_enable], the port header registers) is kept abstract: it owns
    a state of its own, which includes the header register window, and is
    reached only through this interface. *)
Record dfl_env : Type := {
  port_ctl : Type;
  (* readq on the port header feature *)
  hdr_readq : port_ctl -> Z -> Z;
  __port_disable : port_ctl -> Z * port_ctl;
  __port_enable : port_ctl -> port_ctl;
  port_in_reset : port_ctl -> bool;
  PORT_HDR_STS : Z;
  PORT_STS_PWR_STATE : Z;
  PORT_STS_PWR_STATE_AP6 : Z;
  (* kstrtou64(buf, 0, &val) and kstrtou8(buf, 0, &val): [None] is a
     nonzero return *)
  kstrtou64 : string -> option Z;
  kstrtou8 : string -> option Z
}.

(** The feature register windows the two files store to. *)
Inductive feature : Type :=
| FME_FEATURE_ID_GLOBAL_ERR
| PORT_FEATURE_ID_ERROR.

Definition feature_eqb (f g : feature) : bool :=
  match f, g with
  | FME_FEATURE_ID_GLOBAL_ERR, FME_FEATURE_ID_GLOBAL_ERR => true
  | PORT_FEATURE_ID_ERROR, PORT_FEATURE_ID_ERROR => true
  | _, _ => false
  end.

(** An [__iomem] address: the window base and a byte offset. *)
Definition ioaddr : Type := (feature * Z)%type.

Definition ioaddr_eqb (a b : ioaddr) : bool :=
  feature_eqb (fst a) (fst b) && (snd a =? snd b).

(** The device whose [pdata->lock] is taken. *)
Inductive device : Type := FME_DEV | PORT_DEV.

(** Externally visible actions, in program order. *)
Inductive event : Type :=
| EvLock (d : device)
| EvUnlock (d : device)
| EvRead (a : ioaddr) (v : Z)
| EvWrite (a : ioaddr) (v : Z)
| EvHdrRead (off v : Z)
| EvPortDisable (ret : Z)
| EvPortEnable
| EvDevErr (msg : string).

(* ================================================================== *)
(** ** Register offsets *)

Module FmeRegs.
Definition FME_ERROR_MASK : Z := 0x8.
Definition FME_ERROR : Z := 0x10.
Definition MBP_ERROR : Z := BIT_ULL 6.
Definition PCIE0_ERROR_MASK : Z := 0x18.
Definition PCIE0_ERROR : Z := 0x20.
Definition PCIE1_ERROR_MASK : Z := 0x28.
Definition PCIE1_ERROR : Z := 0x30.
Definition FME_FIRST_ERROR : Z := 0x38.
Definition FME_NEXT_ERROR : Z := 0x40.
Definition RAS_NONFAT_ERROR_MASK : Z := 0x48.
Definition RAS_NONFAT_ERROR : Z := 0x50.
Definition RAS_CATFAT_ERROR_MASK : Z := 0x58.
Definition RAS_CATFAT_ERROR : Z := 0x60.
Definition RAS_ERROR_INJECT : Z := 0x68.
Definition INJECT_ERROR_MASK : Z := GENMASK_ULL 2 0.
End FmeRegs.

Module PortRegs.
Definition PORT_ERROR_MASK : Z := 0x8.
Definition PORT_ERROR : Z := 0x10.
Definition PORT_FIRST_ERROR : Z := 0x18.
Definition PORT_MALFORMED_REQ0 : Z := 0x20.
Definition PORT_MALFORMED_REQ1 : Z := 0x28.
Definition ERROR_MASK : Z := GENMASK_ULL 63 0.
End PortRegs.

(* ================================================================== *)
(** ** Hardware model *)

(** Modelled from the spec: the register window of an error domain.  The
    error status, first-error and next-error registers are latches with
    write-1-to-clear semantics; the mask registers and the inject register
    are plain storage. *)
Definition is_w1c (a : ioaddr) : bool :=
  match fst a with
  | FME_FEATURE_ID_GLOBAL_ERR =>
      (snd a =? FmeRegs.FME_ERROR) || (snd a =? FmeRegs.PCIE0_ERROR)
      || (snd a =? FmeRegs.PCIE1_ERROR) || (snd a =? FmeRegs.FME_FIRST_ERROR)
      || (snd a =? FmeRegs.FME_NEXT_ERROR) || (snd a =? FmeRegs.RAS_NONFAT_ERROR)
      || (snd a =? FmeRegs.RAS_CATFAT_ERROR)
  | PORT_FEATURE_ID_ERROR =>
      (snd a =? PortRegs.PORT_ERROR) || (snd a =? PortRegs.PORT_FIRST_ERROR)
  end.

(** Modelled from the spec: what a register holds after a 64-bit store of
    [v] when it held [old]. *)
Definition hw_store (a : ioaddr) (old v : Z) : Z :=
  if is_w1c a then Z.ldiff old v else v.

Section Machine.

Context (E : dfl_env).

(** Modelled from the spec: the simulated device.  [mmio] is the content
    of the two error register windows, [revision] the feature revision
    (immutable for the lifetime of the domain), [port] the state of the
    port controller. *)
Record hw : Type := mkHw {
  mmio : ioaddr -> Z;
  revision : feature -> Z;
  port : port_ctl E
}.

Definition set_mmio (s : hw) (a : ioaddr) (v : Z) : hw :=
  {| mmio := fun b => if ioaddr_eqb a b then v else mmio s b;
     revision := revision s;
     port := port s |}.

Definition set_port (s : hw) (p : port_ctl E) : hw :=
  {| mmio := mmio s; revision := revision s; port := p |}.

(** A driver routine: from a device state to a result, the state it
    leaves, and the actions it performed. *)
Definition M (A : Type) : Type := hw -> A * hw * list event.

Definition ret {A} (a : A) : M A := fun s => (a, s, []).

Definition bind {A B} (m : M A) (f : A -> M B) : M B :=
  fun s =>
    let '(a, s1, e1) := m s in
    let '(b, s2, e2) := f a s1 in
    (b, s2, e1 ++ e2).

Definition result {A} (x : A * hw * list event) : A := fst (fst x).
Definition after {A} (x : A * hw * list event) : hw := snd (fst x).
Definition trace {A} (x : A * hw * list event) : list event := snd x.

(** *** Primitives *)

Definition readq (a : ioaddr) : M Z :=
  fun s => (mmio s a, s, [EvRead a (mmio s a)]).

Definition writeq (v : Z) (a : ioaddr) : M unit :=
  fun s => (tt, set_mmio s a (hw_store a (mmio s a) v), [EvWrite a v]).

Definition readq_hdr (off : Z) : M Z :=
  fun s => (hdr_readq E (port s) off, s,
            [EvHdrRead off (hdr_readq E (port s) off)]).

Definition mutex_lock (d : device) : M unit := fun s => (tt, s, [EvLock d]).
Definition mutex_unlock (d : device) : M unit :=
  fun s => (tt, s, [EvUnlock d]).

Definition dev_err (msg : string) : M unit := fun s => (tt, s, [EvDevErr msg]).

Definition port_disable : M Z :=
  fun s =>
    let d := __port_disable E (port s) in
    (fst d, set_port s (snd d), [EvPortDisable (fst d)]).

Definition port_enable : M unit :=
  fun s => (tt, set_port s (__port_enable E (port s)), [EvPortEnable]).

(** Modelled from the spec: [dfl_feature_revision(base)], declared in
    dfl.h, which is not among the sources.  It yields the hardware revision
    of the feature at [base], which is immutable for the lifetime of the
    domain. *)
Definition dfl_feature_revision (base : feature) : M Z :=
  fun s => (revision s base, s, []).

End Machine.

Arguments mkHw {E}.
Arguments set_mmio {E}.
Arguments set_port {E}.
Arguments readq {E}.
Arguments writeq {E}.
Arguments readq_hdr {E}.
Arguments mutex_lock {E}.
Arguments mutex_unlock {E}.
Arguments dev_err {E}.
Arguments port_disable {E}.
Arguments port_enable {E}.
Arguments dfl_feature_revision {E}.
Arguments mmio {E}.
Arguments revision {E}.
Arguments port {E}.
Arguments ret {E A}.
Arguments bind {E A B}.
Arguments result {E A}.
Arguments after {E A}.
Arguments trace {E A}.

Declare Scope drv_scope.
Delimit Scope drv_scope with drv.
Notation "x <- m ;; k" := (bind m (fun x => k))
  (at level 61, m at next level, right associativity) : drv_scope.
Notation "m ;;; k" := (bind m (fun _ => k))
  (at level 61, right associativity) : drv_scope.

(** C truth value of an integer used as a condition. *)
Definition nonzero (x : Z) : bool := negb (x =? 0).

(* ================================================================== *)
(** ** drivers/fpga/dfl-fme-error.c *)

Module FmeError.
Import FmeRegs.

Section Driver.

Context {E : dfl_env}.
Local Open Scope drv_scope.

(** [dfl_get_feature_ioaddr_by_id(err_dev, FME_FEATURE_ID_GLOBAL_ERR)] *)
Definition base : feature := FME_FEATURE_ID_GLOBAL_ERR.

(** The [*_show] routines print one value with [sprintf]; the embedding
    returns the value that is printed. *)
Definition revision_show : M E Z :=
  dfl_feature_revision base.

Definition pcie0_errors_show : M E Z :=
  readq (base, PCIE0_ERROR).

Definition pcie0_errors_store (buf : string) (count : Z) : M E Z :=
  match kstrtou64 E buf with
  | None => ret (- EINVAL)
  | Some val =>
      mutex_lock FME_DEV ;;;
      writeq (GENMASK_ULL 63 0) (base, PCIE0_ERROR_MASK) ;;;
      v <- readq (base, PCIE0_ERROR) ;;
      r <- (if val =? v
            then writeq v (base, PCIE0_ERROR) ;;; ret 0
            else ret (- EINVAL)) ;;
      writeq 0 (base, PCIE0_ERROR_MASK) ;;;
      mutex_unlock FME_DEV ;;;
      ret (if nonzero r then r else count)
  end.

Definition pcie1_errors_show : M E Z :=
  readq (base, PCIE1_ERROR).

Definition pcie1_errors_store (buf : string) (count : Z) : M E Z :=
  match kstrtou64 E buf with
  | None => ret (- EINVAL)
  | Some val =>
      mutex_lock FME_DEV ;;;
      writeq (GENMASK_ULL 63 0) (base, PCIE1_ERROR_MASK) ;;;
      v <- readq (base, PCIE1_ERROR) ;;
      r <- (if val =? v
            then writeq v (base, PCIE1_ERROR) ;;; ret 0
            else ret (- EINVAL)) ;;
      writeq 0 (base, PCIE1_ERROR_MASK) ;;;
      mutex_unlock FME_DEV ;;;
      ret (if nonzero r then r else count)
  end.

Definition nonfatal_errors_show : M E Z :=
  readq (base, RAS_NONFAT_ERROR).

Definition catfatal_errors_show : M E Z :=
  readq (base, RAS_CATFAT_ERROR).

Definition inject_error_show : M E Z :=
  v <- readq (base, RAS_ERROR_INJECT) ;;
  ret (FIELD_GET INJECT_ERROR_MASK v).

Definition inject_error_store (buf : string) (count : Z) : M E Z :=
  match kstrtou8 E buf with
  | None => ret (- EINVAL)
  | Some inject_error =>
      if nonzero (Z.land inject_error (not64 INJECT_ERROR_MASK))
      then ret (- EINVAL)
      else
        mutex_lock FME_DEV ;;;
        v <- readq (base, RAS_ERROR_INJECT) ;;
        let v := Z.land v (not64 INJECT_ERROR_MASK) in
        let v := Z.lor v (FIELD_PREP INJECT_ERROR_MASK inject_error) in
        writeq v (base, RAS_ERROR_INJECT) ;;;
        mutex_unlock FME_DEV ;;;
        ret count
  end.

Definition errors_show : M E Z :=
  readq (base, FME_ERROR).

Definition first_error_show : M E Z :=
  readq (base, FME_FIRST_ERROR).

Definition next_error_show : M E Z :=
  readq (base, FME_NEXT_ERROR).

Definition clear_store (buf : string) (count : Z) : M E Z :=
  match kstrtou64 E buf with
  | None => ret (- EINVAL)
  | Some val =>
      mutex_lock FME_DEV ;;;
      writeq (GENMASK_ULL 63 0) (base, FME_ERROR_MASK) ;;;
      v <- readq (base, FME_ERROR) ;;
      r <- (if val =? v
            then
              writeq v (base, FME_ERROR) ;;;
              v <- readq (base, FME_FIRST_ERROR) ;;
              writeq v (base, FME_FIRST_ERROR) ;;;
              v <- readq (base, FME_NEXT_ERROR) ;;
              writeq v (base, FME_NEXT_ERROR) ;;;
              ret 0
            else ret (- EINVAL)) ;;
      (* Workaround: disable MBP_ERROR if feature revision is 0 *)
      rev <- dfl_feature_revision base ;;
      writeq (if nonzero rev then 0 else MBP_ERROR) (base, FME_ERROR_MASK) ;;;
      mutex_unlock FME_DEV ;;;
      ret (if nonzero r then r else count)
  end.

Definition fme_error_enable : M E unit :=
  (* Workaround: disable MBP_ERROR if revision is 0 *)
  rev <- dfl_feature_revision base ;;
  writeq (if nonzero rev then 0 else MBP_ERROR) (base, FME_ERROR_MASK) ;;;
  writeq 0 (base, PCIE0_ERROR_MASK) ;;;
  writeq 0 (base, PCIE1_ERROR_MASK) ;;;
  writeq 0 (base, RAS_NONFAT_ERROR_MASK) ;;;
  writeq 0 (base, RAS_CATFAT_ERROR_MASK).

End Driver.
End FmeError.

(* ================================================================== *)
(** ** AFU port error reporting *)

Module AfuError.
Import PortRegs.

Section Driver.

Context {E : dfl_env}.
Local Open Scope drv_scope.

(** [dfl_get_feature_ioaddr_by_id(dev, PORT_FEATURE_ID_ERROR)] *)
Definition base_err : feature := PORT_FEATURE_ID_ERROR.

(* mask or unmask port errors by the error mask register. *)
Definition __port_err_mask (mask : bool) : M E unit :=
  writeq (if mask then ERROR_MASK else 0) (base_err, PORT_ERROR_MASK).

(* clear port errors. *)
Definition __port_err_clear (err : Z) : M E Z :=
  (* if device is still in AP6 power state, can not clear any error. *)
  v <- readq_hdr (PORT_HDR_STS E) ;;
  if FIELD_GET (PORT_STS_PWR_STATE E) v =? PORT_STS_PWR_STATE_AP6 E
  then
    dev_err "Could not clear errors, device in AP6 state." ;;;
    ret (- EBUSY)
  else
    (* Halt Port by keeping Port in reset *)
    r <- port_disable ;;
    if nonzero r then ret r
    else
      (* Mask all errors *)
      __port_err_mask true ;;;
      (* Clear errors if err input matches with current port errors. *)
      v <- readq (base_err, PORT_ERROR) ;;
      r <- (if v =? err
            then
              writeq v (base_err, PORT_ERROR) ;;;
              v <- readq (base_err, PORT_FIRST_ERROR) ;;
              writeq v (base_err, PORT_FIRST_ERROR) ;;;
              ret r
            else ret (- EINVAL)) ;;
      (* Clear mask *)
      __port_err_mask false ;;;
      (* Enable the Port by clear the reset *)
      port_enable ;;;
      ret r.

Definition revision_show : M E Z :=
  dfl_feature_revision base_err.

Definition errors_show : M E Z :=
  mutex_lock PORT_DEV ;;;
  error <- readq (base_err, PORT_ERROR) ;;
  mutex_unlock PORT_DEV ;;;
  ret error.

Definition first_error_show : M E Z :=
  mutex_lock PORT_DEV ;;;
  error <- readq (base_err, PORT_FIRST_ERROR) ;;
  mutex_unlock PORT_DEV ;;;
  ret error.

(** Prints [req1] then [req0], 16 hexadecimal digits each. *)
Definition first_malformed_req_show : M E (Z * Z) :=
  mutex_lock PORT_DEV ;;;
  req0 <- readq (base_err, PORT_MALFORMED_REQ0) ;;
  req1 <- readq (base_err, PORT_MALFORMED_REQ1) ;;
  mutex_unlock PORT_DEV ;;;
  ret (req1, req0).

Definition clear_store (buff : string) (count : Z) : M E Z :=
  match kstrtou64 E buff with
  | None => ret (- EINVAL)
  | Some value =>
      mutex_lock PORT_DEV ;;;
      r <- __port_err_clear value ;;
      mutex_unlock PORT_DEV ;;;
      ret (if nonzero r then r else count)
  end.

(** [port_err_init] up to the creation of the sysfs group. *)
Definition port_err_init : M E unit :=
  mutex_lock PORT_DEV ;;;
  __port_err_mask false ;;;
  mutex_unlock PORT_DEV.

End Driver.
End AfuError.

(* ================================================================== *)
(** ** The clear endpoints, by domain kind *)

(** The domain kinds that have a clear endpoint. *)
Inductive ErrorDomainKind : Type := Port | FmeGlobal | Pcie0 | Pcie1.

Section Domains.

Context {E : dfl_env}.

(** Writing to the clear endpoint of a domain. *)
Definition clear (k : ErrorDomainKind) (buf : string) (count : Z) : M E Z :=
  match k with
  | Port => AfuError.clear_store buf count
  | FmeGlobal => FmeError.clear_store buf count
  | Pcie0 => FmeError.pcie0_errors_store buf count
  | Pcie1 => FmeError.pcie1_errors_store buf count
  end.

Definition mask_reg (k : ErrorDomainKind) : ioaddr :=
  match k with
  | Port => (AfuError.base_err, PortRegs.PORT_ERROR_MASK)
  | FmeGlobal => (FmeError.base, FmeRegs.FME_ERROR_MASK)
  | Pcie0 => (FmeError.base, FmeRegs.PCIE0_ERROR_MASK)
  | Pcie1 => (FmeError.base, FmeRegs.PCIE1_ERROR_MASK)
  end.

Definition status_reg (k : ErrorDomainKind) : ioaddr :=
  match k with
  | Port => (AfuError.base_err, PortRegs.PORT_ERROR)
  | FmeGlobal => (FmeError.base, FmeRegs.FME_ERROR)
  | Pcie0 => (FmeError.base, FmeRegs.PCIE0_ERROR)
  | Pcie1 => (FmeError.base, FmeRegs.PCIE1_ERROR)
  end.

(** The mask a domain holds when no clear is in progress. *)
Definition steady_mask (k : ErrorDomainKind) (s : hw E) : Z :=
  match k with
  | FmeGlobal =>
      if nonzero (revision s FmeError.base) then 0 else FmeRegs.MBP_ERROR
  | _ => 0
  end.

(** The power-state field of the port header reads AP6. *)
Definition in_ap6 (s : hw E) : Prop :=
  FIELD_GET (PORT_STS_PWR_STATE E) (hdr_readq E (port s) (PORT_HDR_STS E))
  = PORT_STS_PWR_STATE_AP6 E.

(** The clear transaction gets to its compare step: always for the FME
    kinds; for the port, when the AP6 check passes and the port has been
    quiesced. *)
Definition reaches_compare (k : ErrorDomainKind) (s : hw E) : Prop :=
  match k with
  | Port => ~ in_ap6 s /\ fst (__port_disable E (port s)) = 0
  | _ => True
  end.

(** What a clear does before it masks the domain: it takes the lock and,
    for the port, loads the header status and quiesces the port. *)
Definition prologue (k : ErrorDomainKind) (s : hw E) : list event :=
  match k with
  | Port =>
      [EvLock PORT_DEV;
       EvHdrRead (PORT_HDR_STS E) (hdr_readq E (port s) (PORT_HDR_STS E));
       EvPortDisable 0]
  | _ => [EvLock FME_DEV]
  end.

(** The addresses stored to, in program order. *)
Fixpoint writes (t : list event) : list ioaddr :=
  match t with
  | [] => []
  | EvWrite a _ :: t => a :: writes t
  | _ :: t => writes t
  end.

(** Some store goes to address [a]. *)
Definition written (a : ioaddr) (t : list event) : bool :=
  existsb (ioaddr_eqb a) (writes t).

(** Every store goes to one of the addresses [allowed]. *)
Definition writes_within (allowed : list ioaddr) (t : list event) : bool :=
  forallb (fun a => existsb (ioaddr_eqb a) allowed) (writes t).

(** No quiesce of the port ([__port_disable] returning 0) is left without
    a later re-enable. *)
Fixpoint port_released (quiesced : bool) (t : list event) : bool :=
  match t with
  | [] => negb quiesced
  | EvPortDisable r :: t => port_released (quiesced || (r =? 0)) t
  | EvPortEnable :: t => port_released false t
  | _ :: t => port_released quiesced t
  end.

(** Every load of an error register happens with the lock held. *)
Fixpoint reads_locked (held : bool) (t : list event) : bool :=
  match t with
  | [] => true
  | EvLock _ :: t => reads_locked true t
  | EvUnlock _ :: t => reads_locked false t
  | EvRead _ _ :: t => held && reads_locked held t
  | _ :: t => reads_locked held t
  end.

(** Some lock is taken. *)
Definition takes_lock (t : list event) : bool :=
  existsb (fun e => match e with EvLock _ => true | _ => false end) t.

(** Every clearable domain holds its steady mask. *)
Definition masks_steady (s : hw E) : Prop :=
  forall k, mmio s (mask_reg k) = steady_mask k s.

(** *** The attribute files of the two devices *)

Inductive read_attr : Type :=
| fme_revision | fme_pcie0_errors | fme_pcie1_errors | fme_nonfatal_errors
| fme_catfatal_errors | fme_inject_error | fme_errors | fme_first_error
| fme_next_error
| port_revision | port_errors | port_first_error | port_first_malformed_req.

Inductive write_attr : Type :=
| fme_pcie0_errors_w | fme_pcie1_errors_w | fme_inject_error_w | fme_clear
| port_clear.

(** The device an attribute belongs to. *)
Definition read_attr_dev (a : read_attr) : device :=
  match a with
  | port_revision | port_errors | port_first_error
  | port_first_malformed_req => PORT_DEV
  | _ => FME_DEV
  end.

(** The attributes that report the content of error registers (all but
    the revision ones). *)
Definition reads_register (a : read_attr) : bool :=
  match a with
  | fme_revision | port_revision => false
  | _ => true
  end.

Local Open Scope drv_scope.

(** Reading an attribute: the values handed to [sprintf]. *)
Definition show (a : read_attr) : M E (list Z) :=
  match a with
  | fme_revision => v <- FmeError.revision_show ;; ret [v]
  | fme_pcie0_errors => v <- FmeError.pcie0_errors_show ;; ret [v]
  | fme_pcie1_errors => v <- FmeError.pcie1_errors_show ;; ret [v]
  | fme_nonfatal_errors => v <- FmeError.nonfatal_errors_show ;; ret [v]
  | fme_catfatal_errors => v <- FmeError.catfatal_errors_show ;; ret [v]
  | fme_inject_error => v <- FmeError.inject_error_show ;; ret [v]
  | fme_errors => v <- FmeError.errors_show ;; ret [v]
  | fme_first_error => v <- FmeError.first_error_show ;; ret [v]
  | fme_next_error => v <- FmeError.next_error_show ;; ret [v]
  | port_revision => v <- AfuError.revision_show ;; ret [v]
  | port_errors => v <- AfuError.errors_show ;; ret [v]
  | port_first_error => v <- AfuError.first_error_show ;; ret [v]
  | port_first_malformed_req =>
      p <- AfuError.first_malformed_req_show ;; ret [fst p; snd p]
  end.

(** Writing an attribute. *)
Definition store (a : write_attr) (buf : string) (count : Z) : M E Z :=
  match a with
  | fme_pcie0_errors_w => FmeError.pcie0_errors_store buf count
  | fme_pcie1_errors_w => FmeError.pcie1_errors_store buf count
  | fme_inject_error_w => FmeError.inject_error_store buf count
  | fme_clear => FmeError.clear_store buf count
  | port_clear => AfuError.clear_store buf count
  end.

(** *** The states the devices can be in *)

(** Both features are initialised before their attributes exist; from
    then on the state changes through the attributes, through the hardware
    latching faults into the write-1-to-clear registers, and through
    whatever happens to the port controller outside these two files. *)
Inductive reachable : hw E -> Prop :=
| reach_init (s0 : hw E) :
    reachable
      (after (AfuError.port_err_init (after (FmeError.fme_error_enable s0))))
| reach_show (a : read_attr) (s : hw E) :
    reachable s -> reachable (after (show a s))
| reach_store (a : write_attr) (buf : string) (count : Z) (s : hw E) :
    reachable s -> reachable (after (store a buf count s))
| reach_latch (a : ioaddr) (v : Z) (s : hw E) :
    is_w1c a = true -> reachable s -> reachable (set_mmio s a v)
| reach_port (p : port_ctl E) (s : hw E) :
    reachable s -> reachable (set_port s p).

End Domains.

(* ================================================================== *)
(** ** A simulated platform *)

(** An instance of the platform to run the routines on: a port controller
    that records whether the port is held in reset and whose disable
    returns a preset value, the header layout of a port (status at 0x40,
    power state in bits 11..8, AP6 = 6), and a decimal reader for the
    text written to the attributes. *)
Module Sim.

Record port_state : Type := {
  hdr : Z -> Z;
  in_reset : bool;
  disable_ret : Z
}.

Definition digit (c : Ascii.ascii) : option Z :=
  let d := Z.of_N (Ascii.N_of_ascii c) - 48 in
  if (0 <=? d) && (d <=? 9) then Some d else None.

Fixpoint parse_dec (s : string) (acc : Z) : option Z :=
  match s with
  | EmptyString => Some acc
  | String c r =>
      match digit c with
      | Some d => parse_dec r (10 * acc + d)
      | None => None
      end
  end.

Definition parse_bounded (bound : Z) (s : string) : option Z :=
  match s with
  | EmptyString => None
  | _ => match parse_dec s 0 with
         | Some v => if v <? bound then Some v else None
         | None => None
         end
  end.

Definition env : dfl_env := {|
  port_ctl := port_state;
  hdr_readq := hdr;
  __port_disable := fun p =>
    (disable_ret p,
     {| hdr := hdr p; in_reset := true; disable_ret := disable_ret p |});
  __port_enable := fun p =>
    {| hdr := hdr p; in_reset := false; disable_ret := disable_ret p |};
  port_in_reset := in_reset;
  PORT_HDR_STS := 0x40;
  PORT_STS_PWR_STATE := GENMASK_ULL 11 8;
  PORT_STS_PWR_STATE_AP6 := 6;
  kstrtou64 := parse_bounded (2 ^ 64);
  kstrtou8 := parse_bounded (2 ^ 8)
|}.

(** A port whose header status reads [sts] and whose disable returns [r]. *)
Definition a_port (sts r : Z) : port_state :=
  {| hdr := fun _ => sts; in_reset := false; disable_ret := r |}.

(** Error registers: every status latch holds 5, the FME mask holds its
    revision-0 steady value, every other register 0. *)
Definition regs (a : ioaddr) : Z :=
  if is_w1c a then 5
  else if ioaddr_eqb a (FmeError.base, FmeRegs.FME_ERROR_MASK)
       then FmeRegs.MBP_ERROR else 0.

Definition dev (sts r : Z) : hw env :=
  @mkHw env regs (fun _ => 0) (a_port sts r).

End Sim.

(* ================================================================== *)
(** ** What the attributes own and show *)

Section Attributes.

Context {E : dfl_env}.

(** The device whose lock a writable attribute takes. *)
Definition write_attr_dev (a : write_attr) : device :=
  match a with
  | port_clear => PORT_DEV
  | _ => FME_DEV
  end.

Definition device_eqb (d d' : device) : bool :=
  match d, d' with
  | FME_DEV, FME_DEV | PORT_DEV, PORT_DEV => true
  | _, _ => false
  end.

(** The registers a writable attribute stores to. *)
Definition owned (a : write_attr) : list ioaddr :=
  match a with
  | fme_pcie0_errors_w =>
      [(FmeError.base, FmeRegs.PCIE0_ERROR_MASK);
       (FmeError.base, FmeRegs.PCIE0_ERROR)]
  | fme_pcie1_errors_w =>
      [(FmeError.base, FmeRegs.PCIE1_ERROR_MASK);
       (FmeError.base, FmeRegs.PCIE1_ERROR)]
  | fme_inject_error_w => [(FmeError.base, FmeRegs.RAS_ERROR_INJECT)]
  | fme_clear =>
      [(FmeError.base, FmeRegs.FME_ERROR_MASK);
       (FmeError.base, FmeRegs.FME_ERROR);
       (FmeError.base, FmeRegs.FME_FIRST_ERROR);
       (FmeError.base, FmeRegs.FME_NEXT_ERROR)]
  | port_clear =>
      [(AfuError.base_err, PortRegs.PORT_ERROR_MASK);
       (AfuError.base_err, PortRegs.PORT_ERROR);
       (AfuError.base_err, PortRegs.PORT_FIRST_ERROR)]
  end.

(** The readable attributes that report a latch the clear of domain [k]
    stores back. *)
Definition cleared_by (k : ErrorDomainKind) (a : read_attr) : bool :=
  match k, a with
  | FmeGlobal, (fme_errors | fme_first_error | fme_next_error) => true
  | Pcie0, fme_pcie0_errors => true
  | Pcie1, fme_pcie1_errors => true
  | Port, (port_errors | port_first_error) => true
  | _, _ => false
  end.

(** The readable attribute that reports the status register of a domain. *)
Definition status_attr (k : ErrorDomainKind) : read_attr :=
  match k with
  | Port => port_errors
  | FmeGlobal => fme_errors
  | Pcie0 => fme_pcie0_errors
  | Pcie1 => fme_pcie1_errors
  end.

(** One critical section discipline for the lock of device [d]: the lock
    is not taken twice, only the lock of [d] is taken or released, every
    other action happens with the lock held, and the lock is free at the
    end. *)
Fixpoint well_locked (d : device) (held : bool) (t : list event) : bool :=
  match t with
  | [] => negb held
  | EvLock d' :: t => negb held && device_eqb d d' && well_locked d true t
  | EvUnlock d' :: t => held && device_eqb d d' && well_locked d false t
  | _ :: t => held && well_locked d held t
  end.

(** Every error register holds a 64-bit value. *)
Definition regs_u64 (s : hw E) : Prop :=
  forall a, 0 <= mmio s a < 2 ^ 64.

(** Every error mask of the two features holds its steady value. *)
Definition all_masks_steady (s : hw E) : Prop :=
  masks_steady s /\
  mmio s (FmeError.base, FmeRegs.RAS_NONFAT_ERROR_MASK) = 0 /\
  mmio s (FmeError.base, FmeRegs.RAS_CATFAT_ERROR_MASK) = 0.

End Attributes.

(* ================================================================== *)
(** ** Feature set-up and tear-down *)

(** [fme_global_err_init], [fme_global_err_uinit], [port_err_init] and
    [port_err_uinit] call into the driver core (allocation, device
    registration, sysfs).  Those calls are recorded as actions; what they
    return is given by [outcomes]. *)
Module Lifecycle.

(** Modelled from the spec: the errno value behind an allocation failure,
    [ENOMEM] of errno-base.h. *)
Definition ENOMEM : Z := 12.

Inductive kcall : Type :=
| KDevDbg (msg : string)
| KKzalloc (ok : bool)
| KDevSetName (name : string)
| KHw (e : event)
| KDeviceRegister (ret : Z)
| KPutDevice
| KSysfsCreateGroups (ret : Z)
| KSysfsRemoveGroups
| KDeviceUnregister
| KSetPriv
| KSysfsCreateGroup (ret : Z)
| KSysfsRemoveGroup.

Record outcomes : Type := {
  kzalloc_ok : bool;
  device_register_ret : Z;
  sysfs_create_groups_ret : Z;
  sysfs_create_group_ret : Z
}.

Section Routines.

Context {E : dfl_env}.

Definition K (A : Type) : Type := hw E -> A * hw E * list kcall.

Definition kret {A} (a : A) : K A := fun s => (a, s, []).

Definition kbind {A B} (m : K A) (f : A -> K B) : K B :=
  fun s =>
    let '(a, s1, e1) := m s in
    let '(b, s2, e2) := f a s1 in
    (b, s2, e1 ++ e2).

Definition kresult {A} (x : A * hw E * list kcall) : A := fst (fst x).
Definition kafter {A} (x : A * hw E * list kcall) : hw E := snd (fst x).
Definition ktrace {A} (x : A * hw E * list kcall) : list kcall := snd x.

(** A call into the driver core. *)
Definition kdo (c : kcall) : K unit := fun s => (tt, s, [c]).

(** A routine of the error drivers, run as part of set-up. *)
Definition lift {A} (m : M E A) : K A :=
  fun s => let '(a, s1, t) := m s in (a, s1, map KHw t).

Local Notation "x <- m ;; k" := (kbind m (fun x => k))
  (at level 61, m at next level, right associativity).
Local Notation "m ;;; k" := (kbind m (fun _ => k))
  (at level 61, right associativity).

Definition fme_global_err_init (o : outcomes) : K Z :=
  kdo (KDevDbg "FME Global Error Reporting Init.") ;;;
  kdo (KKzalloc (kzalloc_ok o)) ;;;
  if negb (kzalloc_ok o) then kret (- ENOMEM)
  else
    kdo (KDevSetName "errors") ;;;
    lift FmeError.fme_error_enable ;;;
    kdo (KDeviceRegister (device_register_ret o)) ;;;
    let r := device_register_ret o in
    if nonzero r then
      kdo KPutDevice ;;;
      kret r
    else
      kdo (KSysfsCreateGroups (sysfs_create_groups_ret o)) ;;;
      let r := sysfs_create_groups_ret o in
      if nonzero r then
        kdo KDeviceUnregister ;;;
        kret r
      else
        kdo KSetPriv ;;;
        kret r.

Definition fme_global_err_uinit : K unit :=
  kdo (KDevDbg "FME Global Error Reporting UInit.") ;;;
  kdo KSysfsRemoveGroups ;;;
  kdo KDeviceUnregister.

Definition port_err_init (o : outcomes) : K Z :=
  kdo (KDevDbg "PORT ERR Init.") ;;;
  lift AfuError.port_err_init ;;;
  kdo (KSysfsCreateGroup (sysfs_create_group_ret o)) ;;;
  kret (sysfs_create_group_ret o).

Definition port_err_uinit : K unit :=
  kdo (KDevDbg "PORT ERR UInit.") ;;;
  kdo KSysfsRemoveGroup.

(** The hardware actions of a set-up trace. *)
Fixpoint hw_actions (t : list kcall) : list event :=
  match t with
  | [] => []
  | KHw e :: t => e :: hw_actions t
  | _ :: t => hw_actions t
  end.

(** The hardware actions that come once the device has been handed to
    [device_register] or the group to [sysfs_create_group]. *)
Fixpoint hw_after_publish (t : list kcall) : list event :=
  match t with
  | [] => []
  | (KDeviceRegister _ | KSysfsCreateGroup _) :: t => hw_actions t
  | _ :: t => hw_after_publish t
  end.

(** How often the reference to the allocated device is dropped. *)
Fixpoint releases (t : list kcall) : nat :=
  match t with
  | [] => 0%nat
  | (KPutDevice | KDeviceUnregister) :: t => S (releases t)
  | _ :: t => releases t
  end.

Definition count_call (p : kcall -> bool) (t : list kcall) : nat :=
  List.length (filter p t).

Definition is_alloc (c : kcall) : bool :=
  match c with KKzalloc true => true | _ => false end.

Definition is_set_priv (c : kcall) : bool :=
  match c with KSetPriv => true | _ => false end.

Definition is_groups_created (c : kcall) : bool :=
  match c with KSysfsCreateGroups 0 => true | _ => false end.

Definition is_groups_removed (c : kcall) : bool :=
  match c with KSysfsRemoveGroups => true | _ => false end.

End Routines.

End Lifecycle.

(* ================================================================== *)
(** ** Proof support *)

Lemma ioaddr_eqb_spec (a b : ioaddr) : reflect (a = b) (ioaddr_eqb a b).
Proof.
  destruct a as [f x], b as [g y]; unfold ioaddr_eqb; cbn [fst snd].
  destruct f, g; cbn [feature_eqb andb];
    try (destruct (Z.eqb_spec x y); constructor; congruence);
    constructor; congruence.
Qed.

(** Decide address comparisons between closed addresses. *)
Ltac eval_addr :=
  repeat match goal with
  | |- context [ioaddr_eqb ?a ?b] =>
      let r := eval vm_compute in (ioaddr_eqb a b) in
      match r with true => idtac | false => idtac end;
      change (ioaddr_eqb a b) with r
  | |- context [is_w1c ?a] =>
      let r := eval vm_compute in (is_w1c a) in
      match r with true => idtac | false => idtac end;
      change (is_w1c a) with r
  end.

(** Run a routine up to its next undecided branch. *)
Ltac run_drv :=
  repeat (progress (
    unfold bind, ret, after, result, trace, readq, writeq, readq_hdr,
      mutex_lock, mutex_unlock, dev_err, port_disable, port_enable,
      dfl_feature_revision, AfuError.__port_err_mask, hw_store;
    cbn [fst snd mmio revision port set_mmio set_port app];
    eval_addr)).

Lemma nonzero_0 : nonzero 0 = false.
Proof. reflexivity. Qed.

Lemma nonzero_neg_EINVAL : nonzero (- EINVAL) = true.
Proof. reflexivity. Qed.

Lemma nonzero_true (x : Z) : x <> 0 -> nonzero x = true.
Proof. intros H. unfold nonzero. now destruct (Z.eqb_spec x 0). Qed.

Lemma eqb_false (x y : Z) : x <> y -> (x =? y) = false.
Proof. intros H. now destruct (Z.eqb_spec x y). Qed.

(** *** Bit-level facts *)

Lemma testbit_U64_MAX (i : Z) : 0 <= i < 64 -> Z.testbit U64_MAX i = true.
Proof.
  intros Hi. change U64_MAX with (Z.ones 64).
  rewrite Z.testbit_ones by lia.
  apply andb_true_iff; split; [apply Z.leb_le | apply Z.ltb_lt]; lia.
Qed.

Lemma testbit_not64 (x i : Z) :
  0 <= i < 64 -> Z.testbit (not64 x) i = negb (Z.testbit x i).
Proof.
  intros Hi. unfold not64.
  rewrite Z.lxor_spec, testbit_U64_MAX by exact Hi.
  now destruct (Z.testbit x i).
Qed.

Lemma testbit_INJECT_ERROR_MASK (i : Z) :
  0 <= i -> Z.testbit FmeRegs.INJECT_ERROR_MASK i = (i <? 3).
Proof.
  intros Hi. change FmeRegs.INJECT_ERROR_MASK with (Z.ones 3).
  rewrite Z.testbit_ones by lia.
  destruct (Z.leb_spec 0 i); [reflexivity | lia].
Qed.

Lemma FIELD_PREP_inject (v : Z) :
  FIELD_PREP FmeRegs.INJECT_ERROR_MASK v = Z.land v (Z.ones 3).
Proof.
  unfold FIELD_PREP.
  change (__bf_shf FmeRegs.INJECT_ERROR_MASK) with 0.
  now rewrite Z.shiftl_0_r.
Qed.

(** The range check of [inject_error_store] on an 8-bit value. *)
Lemma inject_range_check (v : Z) :
  0 <= v < 256 ->
  nonzero (Z.land v (not64 FmeRegs.INJECT_ERROR_MASK)) = (7 <? v).
Proof.
  intros Hv.
  assert (Hl : Z.land v (not64 FmeRegs.INJECT_ERROR_MASK)
               = Z.shiftl (Z.shiftr v 3) 3).
  { rewrite <- Z.ldiff_ones_r by lia.
    apply Z.bits_inj'. intros i Hi.
    rewrite Z.land_spec, Z.ldiff_spec.
    destruct (Z.lt_ge_cases i 64) as [Hlt | Hge].
    - rewrite testbit_not64 by lia.
      now change FmeRegs.INJECT_ERROR_MASK with (Z.ones 3).
    - assert (Hz : Z.testbit v i = false).
      { destruct (Z.eq_dec v 0) as [-> | Hnz]; [apply Z.bits_0 |].
        apply Z.bits_above_log2; [lia |].
        apply Z.lt_le_trans with 8; [| lia].
        apply Z.log2_lt_pow2; lia. }
      now rewrite Hz. }
  rewrite Hl, Z.shiftl_mul_pow2, Z.shiftr_div_pow2 by lia.
  change (2 ^ 3) with 8. unfold nonzero.
  destruct (Z.ltb_spec 7 v) as [Hgt | Hle].
  - assert (1 <= v / 8) by (apply Z.div_le_lower_bound; lia).
    destruct (Z.eqb_spec (v / 8 * 8) 0); [lia | reflexivity].
  - rewrite Z.div_small by lia. reflexivity.
Qed.

(* ================================================================== *)
(** ** What each routine does, path by path *)

Section Paths.

Context {E : dfl_env}.
Import FmeRegs PortRegs.

Local Abbreviation fme off := (FmeError.base, off).
Local Abbreviation prt off := (AfuError.base_err, off).

(** *** [clear_store] of the FME *)

Lemma fme_clear_unparsed buf count (s : hw E) :
  kstrtou64 E buf = None ->
  FmeError.clear_store buf count s = (- EINVAL, s, []).
Proof. intros Hp. unfold FmeError.clear_store. now rewrite Hp. Qed.

Lemma fme_clear_match buf count val (s : hw E) :
  kstrtou64 E buf = Some val ->
  val = mmio s (fme FME_ERROR) ->
  FmeError.clear_store buf count s =
  (count,
   set_mmio (set_mmio (set_mmio (set_mmio (set_mmio s
     (fme FME_ERROR_MASK) (GENMASK_ULL 63 0))
     (fme FME_ERROR)
       (Z.ldiff (mmio s (fme FME_ERROR)) (mmio s (fme FME_ERROR))))
     (fme FME_FIRST_ERROR)
       (Z.ldiff (mmio s (fme FME_FIRST_ERROR)) (mmio s (fme FME_FIRST_ERROR))))
     (fme FME_NEXT_ERROR)
       (Z.ldiff (mmio s (fme FME_NEXT_ERROR)) (mmio s (fme FME_NEXT_ERROR))))
     (fme FME_ERROR_MASK) (steady_mask FmeGlobal s),
   [EvLock FME_DEV;
    EvWrite (fme FME_ERROR_MASK) (GENMASK_ULL 63 0);
    EvRead (fme FME_ERROR) (mmio s (fme FME_ERROR));
    EvWrite (fme FME_ERROR) (mmio s (fme FME_ERROR));
    EvRead (fme FME_FIRST_ERROR) (mmio s (fme FME_FIRST_ERROR));
    EvWrite (fme FME_FIRST_ERROR) (mmio s (fme FME_FIRST_ERROR));
    EvRead (fme FME_NEXT_ERROR) (mmio s (fme FME_NEXT_ERROR));
    EvWrite (fme FME_NEXT_ERROR) (mmio s (fme FME_NEXT_ERROR));
    EvWrite (fme FME_ERROR_MASK) (steady_mask FmeGlobal s);
    EvUnlock FME_DEV]).
Proof.
  intros Hp ->. unfold FmeError.clear_store. rewrite Hp.
  run_drv. rewrite Z.eqb_refl. run_drv.
  rewrite nonzero_0. reflexivity.
Qed.

Lemma fme_clear_mismatch buf count val (s : hw E) :
  kstrtou64 E buf = Some val ->
  val <> mmio s (fme FME_ERROR) ->
  FmeError.clear_store buf count s =
  (- EINVAL,
   set_mmio (set_mmio s
     (fme FME_ERROR_MASK) (GENMASK_ULL 63 0))
     (fme FME_ERROR_MASK) (steady_mask FmeGlobal s),
   [EvLock FME_DEV;
    EvWrite (fme FME_ERROR_MASK) (GENMASK_ULL 63 0);
    EvRead (fme FME_ERROR) (mmio s (fme FME_ERROR));
    EvWrite (fme FME_ERROR_MASK) (steady_mask FmeGlobal s);
    EvUnlock FME_DEV]).
Proof.
  intros Hp Hne. unfold FmeError.clear_store. rewrite Hp.
  run_drv. rewrite (eqb_false _ _ Hne). run_drv.
  rewrite nonzero_neg_EINVAL. reflexivity.
Qed.

(** *** [pcie0_errors_store] and [pcie1_errors_store] *)

Lemma pcie0_unparsed buf count (s : hw E) :
  kstrtou64 E buf = None ->
  FmeError.pcie0_errors_store buf count s = (- EINVAL, s, []).
Proof. intros Hp. unfold FmeError.pcie0_errors_store. now rewrite Hp. Qed.

Lemma pcie0_match buf count val (s : hw E) :
  kstrtou64 E buf = Some val ->
  val = mmio s (fme PCIE0_ERROR) ->
  FmeError.pcie0_errors_store buf count s =
  (count,
   set_mmio (set_mmio (set_mmio s
     (fme PCIE0_ERROR_MASK) (GENMASK_ULL 63 0))
     (fme PCIE0_ERROR)
       (Z.ldiff (mmio s (fme PCIE0_ERROR)) (mmio s (fme PCIE0_ERROR))))
     (fme PCIE0_ERROR_MASK) 0,
   [EvLock FME_DEV;
    EvWrite (fme PCIE0_ERROR_MASK) (GENMASK_ULL 63 0);
    EvRead (fme PCIE0_ERROR) (mmio s (fme PCIE0_ERROR));
    EvWrite (fme PCIE0_ERROR) (mmio s (fme PCIE0_ERROR));
    EvWrite (fme PCIE0_ERROR_MASK) 0;
    EvUnlock FME_DEV]).
Proof.
  intros Hp ->. unfold FmeError.pcie0_errors_store. rewrite Hp.
  run_drv. rewrite Z.eqb_refl. run_drv.
  rewrite nonzero_0. reflexivity.
Qed.

Lemma pcie0_mismatch buf count val (s : hw E) :
  kstrtou64 E buf = Some val ->
  val <> mmio s (fme PCIE0_ERROR) ->
  FmeError.pcie0_errors_store buf count s =
  (- EINVAL,
   set_mmio (set_mmio s
     (fme PCIE0_ERROR_MASK) (GENMASK_ULL 63 0))
     (fme PCIE0_ERROR_MASK) 0,
   [EvLock FME_DEV;
    EvWrite (fme PCIE0_ERROR_MASK) (GENMASK_ULL 63 0);
    EvRead (fme PCIE0_ERROR) (mmio s (fme PCIE0_ERROR));
    EvWrite (fme PCIE0_ERROR_MASK) 0;
    EvUnlock FME_DEV]).
Proof.
  intros Hp Hne. unfold FmeError.pcie0_errors_store. rewrite Hp.
  run_drv. rewrite (eqb_false _ _ Hne). run_drv.
  rewrite nonzero_neg_EINVAL. reflexivity.
Qed.

Lemma pcie1_unparsed buf count (s : hw E) :
  kstrtou64 E buf = None ->
  FmeError.pcie1_errors_store buf count s = (- EINVAL, s, []).
Proof. intros Hp. unfold FmeError.pcie1_errors_store. now rewrite Hp. Qed.

Lemma pcie1_match buf count val (s : hw E) :
  kstrtou64 E buf = Some val ->
  val = mmio s (fme PCIE1_ERROR) ->
  FmeError.pcie1_errors_store buf count s =
  (count,
   set_mmio (set_mmio (set_mmio s
     (fme PCIE1_ERROR_MASK) (GENMASK_ULL 63 0))
     (fme PCIE1_ERROR)
       (Z.ldiff (mmio s (fme PCIE1_ERROR)) (mmio s (fme PCIE1_ERROR))))
     (fme PCIE1_ERROR_MASK) 0,
   [EvLock FME_DEV;
    EvWrite (fme PCIE1_ERROR_MASK) (GENMASK_ULL 63 0);
    EvRead (fme PCIE1_ERROR) (mmio s (fme PCIE1_ERROR));
    EvWrite (fme PCIE1_ERROR) (mmio s (fme PCIE1_ERROR));
    EvWrite (fme PCIE1_ERROR_MASK) 0;
    EvUnlock FME_DEV]).
Proof.
  intros Hp ->. unfold FmeError.pcie1_errors_store. rewrite Hp.
  run_drv. rewrite Z.eqb_refl. run_drv.
  rewrite nonzero_0. reflexivity.
Qed.

Lemma pcie1_mismatch buf count val (s : hw E) :
  kstrtou64 E buf = Some val ->
  val <> mmio s (fme PCIE1_ERROR) ->
  FmeError.pcie1_errors_store buf count s =
  (- EINVAL,
   set_mmio (set_mmio s
     (fme PCIE1_ERROR_MASK) (GENMASK_ULL 63 0))
     (fme PCIE1_ERROR_MASK) 0,
   [EvLock FME_DEV;
    EvWrite (fme PCIE1_ERROR_MASK) (GENMASK_ULL 63 0);
    EvRead (fme PCIE1_ERROR) (mmio s (fme PCIE1_ERROR));
    EvWrite (fme PCIE1_ERROR_MASK) 0;
    EvUnlock FME_DEV]).
Proof.
  intros Hp Hne. unfold FmeError.pcie1_errors_store. rewrite Hp.
  run_drv. rewrite (eqb_false _ _ Hne). run_drv.
  rewrite nonzero_neg_EINVAL. reflexivity.
Qed.

(** *** [inject_error_store] *)

Lemma inject_unparsed buf count (s : hw E) :
  kstrtou8 E buf = None ->
  FmeError.inject_error_store buf count s = (- EINVAL, s, []).
Proof. intros Hp. unfold FmeError.inject_error_store. now rewrite Hp. Qed.

Lemma inject_out_of_range buf count v (s : hw E) :
  kstrtou8 E buf = Some v ->
  0 <= v < 256 -> 7 < v ->
  FmeError.inject_error_store buf count s = (- EINVAL, s, []).
Proof.
  intros Hp Hv Hgt. unfold FmeError.inject_error_store.
  rewrite Hp, inject_range_check by exact Hv.
  now rewrite (proj2 (Z.ltb_lt 7 v) Hgt).
Qed.

Lemma inject_in_range buf count v (s : hw E) :
  kstrtou8 E buf = Some v ->
  0 <= v <= 7 ->
  let old := mmio s (fme RAS_ERROR_INJECT) in
  let new := Z.lor (Z.land old (not64 INJECT_ERROR_MASK))
                   (FIELD_PREP INJECT_ERROR_MASK v) in
  FmeError.inject_error_store buf count s =
  (count,
   set_mmio s (fme RAS_ERROR_INJECT) new,
   [EvLock FME_DEV;
    EvRead (fme RAS_ERROR_INJECT) old;
    EvWrite (fme RAS_ERROR_INJECT) new;
    EvUnlock FME_DEV]).
Proof.
  intros Hp Hv old new. unfold FmeError.inject_error_store.
  rewrite Hp, inject_range_check by lia.
  rewrite (proj2 (Z.ltb_ge 7 v)) by lia.
  run_drv. reflexivity.
Qed.

(** *** [__port_err_clear] and the port's [clear_store] *)

Lemma ap6_check_true (s : hw E) :
  in_ap6 s ->
  (FIELD_GET (PORT_STS_PWR_STATE E) (hdr_readq E (port s) (PORT_HDR_STS E))
   =? PORT_STS_PWR_STATE_AP6 E) = true.
Proof. intros H. apply Z.eqb_eq. exact H. Qed.

Lemma ap6_check_false (s : hw E) :
  ~ in_ap6 s ->
  (FIELD_GET (PORT_STS_PWR_STATE E) (hdr_readq E (port s) (PORT_HDR_STS E))
   =? PORT_STS_PWR_STATE_AP6 E) = false.
Proof. intros H. apply eqb_false. exact H. Qed.

Lemma port_err_clear_ap6 err (s : hw E) :
  in_ap6 s ->
  AfuError.__port_err_clear err s =
  (- EBUSY, s,
   [EvHdrRead (PORT_HDR_STS E) (hdr_readq E (port s) (PORT_HDR_STS E));
    EvDevErr "Could not clear errors, device in AP6 state."]).
Proof.
  intros Hap. unfold AfuError.__port_err_clear.
  run_drv. rewrite (ap6_check_true s Hap). reflexivity.
Qed.

Lemma port_err_clear_disable_failed err (s : hw E) :
  ~ in_ap6 s ->
  fst (__port_disable E (port s)) <> 0 ->
  AfuError.__port_err_clear err s =
  (fst (__port_disable E (port s)),
   set_port s (snd (__port_disable E (port s))),
   [EvHdrRead (PORT_HDR_STS E) (hdr_readq E (port s) (PORT_HDR_STS E));
    EvPortDisable (fst (__port_disable E (port s)))]).
Proof.
  intros Hap Hd. unfold AfuError.__port_err_clear.
  run_drv. rewrite (ap6_check_false s Hap). run_drv.
  rewrite (nonzero_true _ Hd). reflexivity.
Qed.

Lemma port_err_clear_match err (s : hw E) :
  ~ in_ap6 s ->
  fst (__port_disable E (port s)) = 0 ->
  err = mmio s (prt PORT_ERROR) ->
  AfuError.__port_err_clear err s =
  (0,
   set_port
     (set_mmio (set_mmio (set_mmio (set_mmio
        (set_port s (snd (__port_disable E (port s))))
        (prt PORT_ERROR_MASK) ERROR_MASK)
        (prt PORT_ERROR)
          (Z.ldiff (mmio s (prt PORT_ERROR)) (mmio s (prt PORT_ERROR))))
        (prt PORT_FIRST_ERROR)
          (Z.ldiff (mmio s (prt PORT_FIRST_ERROR))
                   (mmio s (prt PORT_FIRST_ERROR))))
        (prt PORT_ERROR_MASK) 0)
     (__port_enable E (snd (__port_disable E (port s)))),
   [EvHdrRead (PORT_HDR_STS E) (hdr_readq E (port s) (PORT_HDR_STS E));
    EvPortDisable 0;
    EvWrite (prt PORT_ERROR_MASK) ERROR_MASK;
    EvRead (prt PORT_ERROR) (mmio s (prt PORT_ERROR));
    EvWrite (prt PORT_ERROR) (mmio s (prt PORT_ERROR));
    EvRead (prt PORT_FIRST_ERROR) (mmio s (prt PORT_FIRST_ERROR));
    EvWrite (prt PORT_FIRST_ERROR) (mmio s (prt PORT_FIRST_ERROR));
    EvWrite (prt PORT_ERROR_MASK) 0;
    EvPortEnable]).
Proof.
  intros Hap Hd ->. unfold AfuError.__port_err_clear.
  run_drv. rewrite (ap6_check_false s Hap). run_drv.
  rewrite Hd, nonzero_0. run_drv.
  rewrite Z.eqb_refl. run_drv. reflexivity.
Qed.

Lemma port_err_clear_mismatch err (s : hw E) :
  ~ in_ap6 s ->
  fst (__port_disable E (port s)) = 0 ->
  err <> mmio s (prt PORT_ERROR) ->
  AfuError.__port_err_clear err s =
  (- EINVAL,
   set_port
     (set_mmio (set_mmio
        (set_port s (snd (__port_disable E (port s))))
        (prt PORT_ERROR_MASK) ERROR_MASK)
        (prt PORT_ERROR_MASK) 0)
     (__port_enable E (snd (__port_disable E (port s)))),
   [EvHdrRead (PORT_HDR_STS E) (hdr_readq E (port s) (PORT_HDR_STS E));
    EvPortDisable 0;
    EvWrite (prt PORT_ERROR_MASK) ERROR_MASK;
    EvRead (prt PORT_ERROR) (mmio s (prt PORT_ERROR));
    EvWrite (prt PORT_ERROR_MASK) 0;
    EvPortEnable]).
Proof.
  intros Hap Hd Hne. unfold AfuError.__port_err_clear.
  run_drv. rewrite (ap6_check_false s Hap). run_drv.
  rewrite Hd, nonzero_0. run_drv.
  rewrite (eqb_false (mmio s (prt PORT_ERROR)) err) by congruence.
  run_drv. reflexivity.
Qed.

Lemma port_clear_unparsed buff count (s : hw E) :
  kstrtou64 E buff = None ->
  AfuError.clear_store buff count s = (- EINVAL, s, []).
Proof. intros Hp. unfold AfuError.clear_store. now rewrite Hp. Qed.

(** [clear_store] brackets [__port_err_clear] with the lock. *)
Lemma port_clear_parsed buff count value (s : hw E) :
  kstrtou64 E buff = Some value ->
  AfuError.clear_store buff count s =
  (let r := result (AfuError.__port_err_clear value s) in
   if nonzero r then r else count,
   after (AfuError.__port_err_clear value s),
   EvLock PORT_DEV
     :: trace (AfuError.__port_err_clear value s) ++ [EvUnlock PORT_DEV]).
Proof.
  intros Hp. unfold AfuError.clear_store. rewrite Hp.
  unfold bind at 1 2 3, mutex_lock, mutex_unlock, ret.
  destruct (AfuError.__port_err_clear value s) as [[r s1] t].
  reflexivity.
Qed.

End Paths.

Ltac port_path L :=
  match goal with
  | Hp : kstrtou64 _ _ = Some _ |- _ =>
      rewrite (port_clear_parsed _ _ _ _ Hp), L by assumption;
      cbn [result after trace fst snd app]
  end.

Ltac in_trace :=
  solve [cbn [In]; repeat (first [left; reflexivity | right])].

Ltac solve_reg := run_drv; rewrite ?Z.ldiff_diag; try reflexivity.

(** Name what follows the first [n] actions of a trace. *)
Ltac cut_trace n :=
  match goal with
  | |- exists post, ?t = _ => exists (skipn n t); reflexivity
  end.

Ltac settle :=
  intros; try tauto; try congruence; try in_trace;
  try solve_reg; try (subst; in_trace).

(* ================================================================== *)
(** ** The steady-mask invariant *)

(** Run a routine through all of its branches. *)
Ltac crack :=
  repeat (run_drv;
    match goal with
    | |- context [match ?x with Some _ => _ | None => _ end] =>
        destruct x eqn:?
    | |- context [if ?c then _ else _] => destruct c eqn:?
    end);
  run_drv.

Section Invariant.

Context {E : dfl_env}.

Lemma show_keeps_state (a : read_attr) (s : hw E) : after (show a s) = s.
Proof. destruct a; reflexivity. Qed.

Lemma init_masks_steady (s0 : hw E) :
  masks_steady
    (after (AfuError.port_err_init (after (FmeError.fme_error_enable s0)))).
Proof.
  intros k.
  destruct k; unfold AfuError.port_err_init, FmeError.fme_error_enable;
    cbn [mask_reg steady_mask]; solve_reg.
Qed.

Lemma store_keeps_masks_steady (a : write_attr) buf count (s : hw E) :
  masks_steady s -> masks_steady (after (store a buf count s)).
Proof.
  intros H k.
  pose proof (H Port) as HP. pose proof (H FmeGlobal) as HF.
  pose proof (H Pcie0) as H0. pose proof (H Pcie1) as H1.
  cbn [mask_reg steady_mask] in HP, HF, H0, H1.
  destruct a, k;
    unfold store, FmeError.pcie0_errors_store, FmeError.pcie1_errors_store,
      FmeError.inject_error_store, FmeError.clear_store,
      AfuError.clear_store, AfuError.__port_err_clear;
    cbn [mask_reg steady_mask]; crack; try assumption; reflexivity.
Qed.

Lemma latch_keeps_masks_steady (a : ioaddr) (v : Z) (s : hw E) :
  is_w1c a = true -> masks_steady s -> masks_steady (set_mmio s a v).
Proof.
  intros Ha H k. specialize (H k).
  assert (Hne : a <> mask_reg k).
  { intros ->. destruct k; discriminate Ha. }
  destruct k; cbn [mask_reg steady_mask mmio revision set_mmio] in *;
    match goal with
    | |- context [ioaddr_eqb a ?m] =>
        destruct (ioaddr_eqb_spec a m) as [Heq | _];
          [contradiction | exact H]
    end.
Qed.

(** In every state the devices can be in, every clearable domain holds
    its steady mask. *)
Lemma reachable_masks_steady (s : hw E) : reachable s -> masks_steady s.
Proof.
  induction 1 as [s0 | a s _ IH | a buf count s _ IH | a v s Ha _ IH
                  | p s _ IH].
  - apply init_masks_steady.
  - now rewrite show_keeps_state.
  - now apply store_keeps_masks_steady.
  - now apply latch_keeps_masks_steady.
  - intros k. specialize (IH k). destruct k; exact IH.
Qed.

End Invariant.

(* ================================================================== *)
(** ** The clear transaction *)

Section ClearTransaction.

Context {E : dfl_env}.

(** C1.  For each of the four kinds and every value [expected] written to
    the clear endpoint, once the transaction gets to its compare step
    (for the port: the AP6 check passed and the port was quiesced), the
    status register is loaded right after the mask has been set to
    all-ones (which follows the taking of the lock and, for the port, the
    header load and the quiesce) and holds what it held on entry; the
    operation succeeds (returns [count]) exactly when [expected] equals
    that value.  On success the value is stored back to the status
    register, which then reads 0; otherwise the result is [-EINVAL], no
    store goes to the status register and it keeps its value. *)
Theorem clear_succeeds_iff_status_matches
    (k : ErrorDomainKind) (buf : string) (count expected : Z) (s : hw E) :
  kstrtou64 E buf = Some expected ->
  0 <= count ->
  reaches_compare k s ->
  let x := clear k buf count s in
  let status := mmio s (status_reg k) in
  (exists post,
     trace x = prologue k s ++ EvWrite (mask_reg k) (GENMASK_ULL 63 0)
                               :: EvRead (status_reg k) status :: post) /\
  (result x = count <-> expected = status) /\
  (expected = status ->
     In (EvWrite (status_reg k) expected) (trace x) /\
     mmio (after x) (status_reg k) = 0) /\
  (expected <> status ->
     result x = - EINVAL /\
     written (status_reg k) (trace x) = false /\
     mmio (after x) (status_reg k) = status).
Proof.
  intros Hp Hc Hr x status. subst x status.
  assert (Hcount : count <> - EINVAL) by (unfold EINVAL; lia).
  destruct (Z.eq_dec expected (mmio s (status_reg k))) as [Heq | Hne];
    destruct k; cbn [clear status_reg mask_reg reaches_compare prologue] in *.
  - destruct Hr as [Hap Hd].
    port_path (port_err_clear_match expected s Hap Hd Heq).
    rewrite nonzero_0.
    split; [cut_trace 5%nat | split; [| split; [split |]]]; settle.
  - rewrite (fme_clear_match _ _ _ _ Hp Heq);
      cbn [result after trace fst snd].
    split; [cut_trace 3%nat | split; [| split; [split |]]]; settle.
  - rewrite (pcie0_match _ _ _ _ Hp Heq);
      cbn [result after trace fst snd].
    split; [cut_trace 3%nat | split; [| split; [split |]]]; settle.
  - rewrite (pcie1_match _ _ _ _ Hp Heq);
      cbn [result after trace fst snd].
    split; [cut_trace 3%nat | split; [| split; [split |]]]; settle.
  - destruct Hr as [Hap Hd].
    port_path (port_err_clear_mismatch expected s Hap Hd Hne).
    rewrite nonzero_neg_EINVAL.
    split; [cut_trace 5%nat | split; [split |]]; settle.
  - rewrite (fme_clear_mismatch _ _ _ _ Hp Hne);
      cbn [result after trace fst snd].
    split; [cut_trace 3%nat | split; [split |]]; settle.
  - rewrite (pcie0_mismatch _ _ _ _ Hp Hne);
      cbn [result after trace fst snd].
    split; [cut_trace 3%nat | split; [split |]]; settle.
  - rewrite (pcie1_mismatch _ _ _ _ Hp Hne);
      cbn [result after trace fst snd].
    split; [cut_trace 3%nat | split; [split |]]; settle.
Qed.

(** C3.  For each of the four kinds and every value written, when the
    transaction has got to its compare step the operation returns success
    or [-EINVAL], and the mask register then holds the steady value of the
    domain: 0 for Port, PCIe0 and PCIe1; for the FME 0 unless the revision
    is 0, in which case [MBP_ERROR].  It is not left at all-ones, and if
    every domain held its steady mask on entry, every domain does on
    return. *)
Theorem clear_restores_steady_mask
    (k : ErrorDomainKind) (buf : string) (count expected : Z) (s : hw E) :
  kstrtou64 E buf = Some expected ->
  reaches_compare k s ->
  let x := clear k buf count s in
  (result x = count \/ result x = - EINVAL) /\
  mmio (after x) (mask_reg k) = steady_mask k s /\
  steady_mask k s =
    match k with
    | FmeGlobal =>
        if revision s FmeError.base =? 0 then FmeRegs.MBP_ERROR else 0
    | _ => 0
    end /\
  mmio (after x) (mask_reg k) <> GENMASK_ULL 63 0 /\
  (masks_steady s -> masks_steady (after x)).
Proof.
  intros Hp Hr x. subst x.
  assert (Hkeep : masks_steady s -> masks_steady (after (clear k buf count s))).
  { destruct k; cbn [clear].
    - apply (store_keeps_masks_steady port_clear).
    - apply (store_keeps_masks_steady fme_clear).
    - apply (store_keeps_masks_steady fme_pcie0_errors_w).
    - apply (store_keeps_masks_steady fme_pcie1_errors_w). }
  assert (Hsteady : steady_mask k s <> GENMASK_ULL 63 0).
  { destruct k; cbn [steady_mask]; try discriminate.
    destruct (nonzero _); discriminate. }
  assert (Hval : steady_mask k s =
    match k with
    | FmeGlobal =>
        if revision s FmeError.base =? 0 then FmeRegs.MBP_ERROR else 0
    | _ => 0
    end).
  { destruct k; cbn [steady_mask]; try reflexivity.
    unfold nonzero. now destruct (revision s FmeError.base =? 0). }
  assert (Hmask : mmio (after (clear k buf count s)) (mask_reg k)
                  = steady_mask k s /\
                  (result (clear k buf count s) = count \/
                   result (clear k buf count s) = - EINVAL)).
  { clear Hsteady Hval.
    destruct (Z.eq_dec expected (mmio s (status_reg k))) as [Heq | Hne];
      destruct k; cbn [clear status_reg mask_reg reaches_compare] in *.
    - destruct Hr as [Hap Hd].
      port_path (port_err_clear_match expected s Hap Hd Heq).
      rewrite nonzero_0. split; [solve_reg | now left].
    - rewrite (fme_clear_match _ _ _ _ Hp Heq);
        cbn [result after trace fst snd]. split; [solve_reg | now left].
    - rewrite (pcie0_match _ _ _ _ Hp Heq);
        cbn [result after trace fst snd]. split; [solve_reg | now left].
    - rewrite (pcie1_match _ _ _ _ Hp Heq);
        cbn [result after trace fst snd]. split; [solve_reg | now left].
    - destruct Hr as [Hap Hd].
      port_path (port_err_clear_mismatch expected s Hap Hd Hne).
      rewrite nonzero_neg_EINVAL. split; [solve_reg | now right].
    - rewrite (fme_clear_mismatch _ _ _ _ Hp Hne);
        cbn [result after trace fst snd]. split; [solve_reg | now right].
    - rewrite (pcie0_mismatch _ _ _ _ Hp Hne);
        cbn [result after trace fst snd]. split; [solve_reg | now right].
    - rewrite (pcie1_mismatch _ _ _ _ Hp Hne);
        cbn [result after trace fst snd]. split; [solve_reg | now right]. }
  destruct Hmask as [Hm Hres].
  split; [exact Hres | split; [exact Hm | split; [exact Hval | split]]].
  - rewrite Hm. exact Hsteady.
  - exact Hkeep.
Qed.

End ClearTransaction.

(* ================================================================== *)
(** ** The port: power gating, quiescing and re-enabling *)

Section PortClear.

Context {E : dfl_env}.
Import PortRegs.

(** C4.  Writing any text to the port's clear endpoint never leaves a
    quiesce of the port without a later re-enable.  For every value
    written, once the AP6 check has passed and the port has been quiesced
    ([__port_disable] returned 0), the re-enable step is the last action
    before the lock is released, whether the compare succeeds or fails:
    the port controller is left as [__port_enable] leaves it, hence out of
    reset whenever [__port_enable] takes the port out of reset. *)
Theorem port_clear_reenables_port (buf : string) (count : Z) (s : hw E) :
  let x := clear Port buf count s in
  port_released false (trace x) = true /\
  forall expected,
    kstrtou64 E buf = Some expected ->
    ~ in_ap6 s ->
    fst (__port_disable E (port s)) = 0 ->
    (result x = count \/ result x = - EINVAL) /\
    In (EvPortDisable 0) (trace x) /\
    (exists pre, trace x = pre ++ [EvPortEnable; EvUnlock PORT_DEV]) /\
    port (after x) = __port_enable E (snd (__port_disable E (port s))) /\
    ((forall p, port_in_reset E (__port_enable E p) = false) ->
     port_in_reset E (port (after x)) = false).
Proof.
  intros x. subst x. cbn [clear]. split.
  - destruct (kstrtou64 E buf) as [v |] eqn:Hp;
      [| now rewrite (port_clear_unparsed _ _ _ Hp)].
    destruct (Z.eq_dec
                (FIELD_GET (PORT_STS_PWR_STATE E)
                   (hdr_readq E (port s) (PORT_HDR_STS E)))
                (PORT_STS_PWR_STATE_AP6 E)) as [Hap | Hap].
    { port_path (port_err_clear_ap6 v s Hap). reflexivity. }
    destruct (Z.eq_dec (fst (__port_disable E (port s))) 0) as [Hd | Hd].
    + destruct (Z.eq_dec v (mmio s (AfuError.base_err, PORT_ERROR)))
        as [Heq | Hne].
      * port_path (port_err_clear_match v s Hap Hd Heq). reflexivity.
      * port_path (port_err_clear_mismatch v s Hap Hd Hne). reflexivity.
    + port_path (port_err_clear_disable_failed v s Hap Hd).
      cbn [port_released orb]. now rewrite (eqb_false _ _ Hd).
  - intros expected Hp Hap Hd.
    destruct (Z.eq_dec expected (mmio s (AfuError.base_err, PORT_ERROR)))
      as [Heq | Hne].
    + port_path (port_err_clear_match expected s Hap Hd Heq).
      rewrite nonzero_0.
      split; [now left | split; [in_trace | split; [| split]]].
      * match goal with
        | |- exists pre, ?t = _ => exists (removelast (removelast t))
        end. reflexivity.
      * reflexivity.
      * intros H. apply H.
    + port_path (port_err_clear_mismatch expected s Hap Hd Hne).
      rewrite nonzero_neg_EINVAL.
      split; [now right | split; [in_trace | split; [| split]]].
      * match goal with
        | |- exists pre, ?t = _ => exists (removelast (removelast t))
        end. reflexivity.
      * reflexivity.
      * intros H. apply H.
Qed.

(** C5.  If the power-state field of the port header reads AP6, writing
    any value to the port's clear endpoint returns [-EBUSY]; the only
    actions are the header load and the error message, under the lock:
    no store, no port disable or enable, and the device state is the one
    found on entry. *)
Theorem port_clear_in_ap6_touches_nothing
    (buf : string) (count expected : Z) (s : hw E) :
  kstrtou64 E buf = Some expected ->
  in_ap6 s ->
  let x := clear Port buf count s in
  result x = - EBUSY /\
  after x = s /\
  trace x =
    [EvLock PORT_DEV;
     EvHdrRead (PORT_HDR_STS E) (hdr_readq E (port s) (PORT_HDR_STS E));
     EvDevErr "Could not clear errors, device in AP6 state.";
     EvUnlock PORT_DEV] /\
  writes (trace x) = [] /\
  (forall a, mmio (after x) a = mmio s a).
Proof.
  intros Hp Hap x. subst x. cbn [clear].
  port_path (port_err_clear_ap6 expected s Hap).
  repeat split.
Qed.

(** C10.  If the AP6 check passes and [__port_disable] fails (returns
    [r <> 0]), writing to the port's clear endpoint returns [r] at once:
    after the header load and the disable call nothing else is done under
    the lock -- no store to the mask, status or first-error register, no
    re-enable -- and the error registers hold what they held on entry. *)
Theorem port_clear_disable_failure_returns_at_once
    (buf : string) (count expected r : Z) (s : hw E) :
  kstrtou64 E buf = Some expected ->
  ~ in_ap6 s ->
  fst (__port_disable E (port s)) = r ->
  r <> 0 ->
  let x := clear Port buf count s in
  result x = r /\
  trace x =
    [EvLock PORT_DEV;
     EvHdrRead (PORT_HDR_STS E) (hdr_readq E (port s) (PORT_HDR_STS E));
     EvPortDisable r;
     EvUnlock PORT_DEV] /\
  writes (trace x) = [] /\
  ~ In EvPortEnable (trace x) /\
  (forall a, mmio (after x) a = mmio s a) /\
  port (after x) = snd (__port_disable E (port s)).
Proof.
  intros Hp Hap Hr Hnz x. subst x r. cbn [clear].
  port_path (port_err_clear_disable_failed expected s Hap Hnz).
  rewrite (nonzero_true _ Hnz).
  repeat split.
  cbn [In]. intros [H | [H | [H | [H | []]]]]; discriminate H.
Qed.

End PortClear.

(* ================================================================== *)
(** ** Which registers a successful clear stores to *)

Section WriteSets.

Context {E : dfl_env}.
Import FmeRegs PortRegs.

(** C2, as the code has it.  During a successful clear the first-error
    latch is stored back with its own freshly loaded content for the FME
    and for the port; the next-error latch for the FME only (the port has
    none).  The PCIe0 and PCIe1 clears store to nothing but their own mask
    and status registers. *)
Theorem successful_clear_write_set
    (k : ErrorDomainKind) (buf : string) (count expected : Z) (s : hw E) :
  kstrtou64 E buf = Some expected ->
  reaches_compare k s ->
  expected = mmio s (status_reg k) ->
  let x := clear k buf count s in
  let first_fme := (FmeError.base, FME_FIRST_ERROR) in
  let next_fme := (FmeError.base, FME_NEXT_ERROR) in
  let first_port := (AfuError.base_err, PORT_FIRST_ERROR) in
  result x = count /\
  writes (trace x) =
    match k with
    | FmeGlobal =>
        [mask_reg k; status_reg k; first_fme; next_fme; mask_reg k]
    | Port => [mask_reg k; status_reg k; first_port; mask_reg k]
    | Pcie0 | Pcie1 => [mask_reg k; status_reg k; mask_reg k]
    end /\
  (k = FmeGlobal ->
     In (EvWrite first_fme (mmio s first_fme)) (trace x) /\
     In (EvWrite next_fme (mmio s next_fme)) (trace x)) /\
  (k = Port -> In (EvWrite first_port (mmio s first_port)) (trace x)) /\
  (k = Pcie0 \/ k = Pcie1 ->
     writes_within [mask_reg k; status_reg k] (trace x) = true).
Proof.
  intros Hp Hr Heq x. subst x.
  destruct k; cbn [clear status_reg mask_reg reaches_compare] in *;
    cbv zeta.
  - destruct Hr as [Hap Hd].
    port_path (port_err_clear_match expected s Hap Hd Heq).
    rewrite nonzero_0.
    split; [reflexivity | split; [reflexivity |]].
    split; [discriminate | split; [intros _; in_trace |]].
    intros [H | H]; discriminate H.
  - rewrite (fme_clear_match _ _ _ _ Hp Heq);
      cbn [result after trace fst snd].
    split; [reflexivity | split; [reflexivity |]].
    split; [intros _; split; in_trace | split; [discriminate |]].
    intros [H | H]; discriminate H.
  - rewrite (pcie0_match _ _ _ _ Hp Heq);
      cbn [result after trace fst snd].
    split; [reflexivity | split; [reflexivity |]].
    split; [discriminate | split; [discriminate | reflexivity]].
  - rewrite (pcie1_match _ _ _ _ Hp Heq);
      cbn [result after trace fst snd].
    split; [reflexivity | split; [reflexivity |]].
    split; [discriminate | split; [discriminate | reflexivity]].
Qed.

End WriteSets.

(* ================================================================== *)
(** ** Enabling the FME error feature, and fault injection *)

Section FmeFeature.

Context {E : dfl_env}.
Import FmeRegs.

Local Abbreviation fme off := (FmeError.base, off).

(** C6.  [fme_error_enable] leaves the PCIe0, PCIe1, RAS non-fatal and
    RAS catastrophic/fatal masks at 0 and the FME error mask at 0 when the
    revision is nonzero, at [MBP_ERROR] (bit 6 alone) when it is 0.  A
    successful [clear_store] in any later state of the same device --
    whatever the FME error mask holds on entry -- sets the mask to
    all-ones and, as its last action before releasing the lock, stores
    that same revision-dependent value back to it, so that the mask holds
    on return what [fme_error_enable] left. *)
Theorem fme_enable_sets_steady_masks (s : hw E) :
  let s1 := after (FmeError.fme_error_enable s) in
  mmio s1 (fme PCIE0_ERROR_MASK) = 0 /\
  mmio s1 (fme PCIE1_ERROR_MASK) = 0 /\
  mmio s1 (fme RAS_NONFAT_ERROR_MASK) = 0 /\
  mmio s1 (fme RAS_CATFAT_ERROR_MASK) = 0 /\
  mmio s1 (fme FME_ERROR_MASK) =
    (if revision s FmeError.base =? 0 then MBP_ERROR else 0) /\
  MBP_ERROR = 2 ^ 6 /\
  forall (s2 : hw E) buf count expected,
    revision s2 FmeError.base = revision s FmeError.base ->
    kstrtou64 E buf = Some expected ->
    expected = mmio s2 (fme FME_ERROR) ->
    let x := FmeError.clear_store buf count s2 in
    let steady := if revision s FmeError.base =? 0 then MBP_ERROR else 0 in
    result x = count /\
    In (EvWrite (fme FME_ERROR_MASK) (GENMASK_ULL 63 0)) (trace x) /\
    (exists pre,
       trace x = pre ++ [EvWrite (fme FME_ERROR_MASK) steady;
                         EvUnlock FME_DEV]) /\
    mmio (after x) (fme FME_ERROR_MASK) = steady /\
    mmio (after x) (fme FME_ERROR_MASK) = mmio s1 (fme FME_ERROR_MASK).
Proof.
  intros s1.
  assert (Hsteady : forall s' : hw E, revision s' FmeError.base
                               = revision s FmeError.base ->
            steady_mask FmeGlobal s' =
            (if revision s FmeError.base =? 0 then MBP_ERROR else 0)).
  { intros s' Hrev. cbn [steady_mask]. rewrite Hrev. unfold nonzero.
    now destruct (revision s FmeError.base =? 0). }
  assert (Hmask : mmio s1 (fme FME_ERROR_MASK) = steady_mask FmeGlobal s).
  { subst s1. unfold FmeError.fme_error_enable. solve_reg. }
  rewrite (Hsteady s eq_refl) in Hmask.
  split; [subst s1; unfold FmeError.fme_error_enable; solve_reg |].
  split; [subst s1; unfold FmeError.fme_error_enable; solve_reg |].
  split; [subst s1; unfold FmeError.fme_error_enable; solve_reg |].
  split; [subst s1; unfold FmeError.fme_error_enable; solve_reg |].
  split; [exact Hmask |].
  split; [reflexivity |].
  intros s2 buf count expected Hrev Hp Heq x steady. subst x steady.
  rewrite (fme_clear_match _ _ _ _ Hp Heq);
    cbn [result after trace fst snd].
  rewrite (Hsteady s2 Hrev).
  assert (Hafter :
    mmio
      (set_mmio (set_mmio (set_mmio (set_mmio (set_mmio s2
         (fme FME_ERROR_MASK) (GENMASK_ULL 63 0))
         (fme FME_ERROR)
           (Z.ldiff (mmio s2 (fme FME_ERROR)) (mmio s2 (fme FME_ERROR))))
         (fme FME_FIRST_ERROR)
           (Z.ldiff (mmio s2 (fme FME_FIRST_ERROR))
                    (mmio s2 (fme FME_FIRST_ERROR))))
         (fme FME_NEXT_ERROR)
           (Z.ldiff (mmio s2 (fme FME_NEXT_ERROR))
                    (mmio s2 (fme FME_NEXT_ERROR))))
         (fme FME_ERROR_MASK)
           (if revision s FmeError.base =? 0 then MBP_ERROR else 0))
      (fme FME_ERROR_MASK)
    = (if revision s FmeError.base =? 0 then MBP_ERROR else 0)).
  { solve_reg. }
  split; [reflexivity | split; [in_trace | split; [| split]]].
  - match goal with
    | |- exists pre, ?t = _ => exists (removelast (removelast t))
    end. reflexivity.
  - exact Hafter.
  - rewrite Hmask. exact Hafter.
Qed.

(** C7.  For an 8-bit value [v] written to [inject_error]: if [v] has a
    bit set above the low three, the result is [-EINVAL], no register is
    accessed and the device is as found; if [v] is in 0..7, the inject
    register is loaded and stored once under the lock, its low three bits
    become those of [v], each of its other bits keeps its value, and no
    other register changes. *)
Theorem inject_error_store_replaces_low_bits
    (buf : string) (count v : Z) (s : hw E) :
  kstrtou8 E buf = Some v ->
  0 <= v < 256 ->
  let x := FmeError.inject_error_store buf count s in
  let inj := fme RAS_ERROR_INJECT in
  (7 < v -> result x = - EINVAL /\ trace x = [] /\ after x = s) /\
  (v <= 7 ->
     result x = count /\
     trace x = [EvLock FME_DEV;
                EvRead inj (mmio s inj);
                EvWrite inj (mmio (after x) inj);
                EvUnlock FME_DEV] /\
     (forall i, 0 <= i < 64 ->
        Z.testbit (mmio (after x) inj) i =
        if i <? 3 then Z.testbit v i else Z.testbit (mmio s inj) i) /\
     (forall a, a <> inj -> mmio (after x) a = mmio s a)).
Proof.
  intros Hp Hv x inj. subst x inj. split.
  - intros Hgt. rewrite (inject_out_of_range _ _ _ _ Hp Hv Hgt).
    repeat split.
  - intros Hle.
    rewrite (inject_in_range _ _ _ _ Hp (conj (proj1 Hv) Hle)).
    cbn [result after trace fst snd].
    split; [reflexivity |]. split; [solve_reg |]. split.
    + intros i Hi. run_drv.
      rewrite Z.lor_spec, Z.land_spec, testbit_not64 by exact Hi.
      rewrite FIELD_PREP_inject, Z.land_spec.
      rewrite testbit_INJECT_ERROR_MASK by lia.
      rewrite Z.testbit_ones by lia.
      destruct (Z.ltb_spec i 3) as [Hlow | Hhigh].
      * destruct (Z.leb_spec 0 i); [| lia].
        cbn [negb andb]. now rewrite andb_false_r, andb_true_r.
      * cbn [negb andb]. now rewrite !andb_false_r, andb_true_r, orb_false_r.
    + intros a Ha. run_drv.
      destruct (ioaddr_eqb_spec (fme RAS_ERROR_INJECT) a) as [Hx | _];
        [congruence | reflexivity].
Qed.

End FmeFeature.

(* ================================================================== *)
(** ** Failed operations *)

Section Failures.

Context {E : dfl_env}.

(** C8.  In any state the devices can be in: when a clear gets to its
    compare step and fails with [-EINVAL] because the value written
    differs from the status register, every error register of both
    windows holds on return what it held on entry (the mask is stored
    twice and ends at the steady value it started from), the revision is
    as found, and the port controller is untouched for the FME kinds and
    has gone through one disable/enable cycle for the port.  When a write
    is refused with [-EINVAL] because the text does not parse, or because
    the inject value is out of range, no action at all is performed and
    the device state is the one found. *)
Theorem failed_operations_leave_registers (s : hw E) :
  reachable s ->
  (forall k buf count expected,
     kstrtou64 E buf = Some expected ->
     reaches_compare k s ->
     expected <> mmio s (status_reg k) ->
     let x := clear k buf count s in
     result x = - EINVAL /\
     (forall a, mmio (after x) a = mmio s a) /\
     revision (after x) = revision s /\
     port (after x) =
       match k with
       | Port => __port_enable E (snd (__port_disable E (port s)))
       | _ => port s
       end) /\
  (forall a buf count,
     match a with
     | fme_inject_error_w => kstrtou8 E buf
     | _ => kstrtou64 E buf
     end = None ->
     let x := store a buf count s in
     result x = - EINVAL /\ trace x = [] /\ after x = s) /\
  (forall buf count v,
     kstrtou8 E buf = Some v ->
     0 <= v < 256 ->
     7 < v ->
     let x := store fme_inject_error_w buf count s in
     result x = - EINVAL /\ trace x = [] /\ after x = s).
Proof.
  intros Hreach. pose proof (reachable_masks_steady s Hreach) as Hinv.
  split; [| split].
  - intros k buf count expected Hp Hr Hne x. subst x.
    specialize (Hinv k).
    destruct k; cbn [clear status_reg mask_reg reaches_compare] in *.
    + destruct Hr as [Hap Hd].
      port_path (port_err_clear_mismatch expected s Hap Hd Hne).
      rewrite nonzero_neg_EINVAL.
      split; [reflexivity | split; [| split; reflexivity]].
      intros a. run_drv.
      destruct (ioaddr_eqb_spec
                  (AfuError.base_err, PortRegs.PORT_ERROR_MASK) a)
        as [<- | _]; [now rewrite Hinv | reflexivity].
    + rewrite (fme_clear_mismatch _ _ _ _ Hp Hne);
        cbn [result after trace fst snd].
      split; [reflexivity | split; [| split; reflexivity]].
      intros a. run_drv.
      destruct (ioaddr_eqb_spec (FmeError.base, FmeRegs.FME_ERROR_MASK) a)
        as [<- | _]; [now rewrite Hinv | reflexivity].
    + rewrite (pcie0_mismatch _ _ _ _ Hp Hne);
        cbn [result after trace fst snd].
      split; [reflexivity | split; [| split; reflexivity]].
      intros a. run_drv.
      destruct (ioaddr_eqb_spec (FmeError.base, FmeRegs.PCIE0_ERROR_MASK) a)
        as [<- | _]; [now rewrite Hinv | reflexivity].
    + rewrite (pcie1_mismatch _ _ _ _ Hp Hne);
        cbn [result after trace fst snd].
      split; [reflexivity | split; [| split; reflexivity]].
      intros a. run_drv.
      destruct (ioaddr_eqb_spec (FmeError.base, FmeRegs.PCIE1_ERROR_MASK) a)
        as [<- | _]; [now rewrite Hinv | reflexivity].
  - intros a buf count Hp x. subst x.
    destruct a; cbn [store].
    + rewrite (pcie0_unparsed _ _ _ Hp). repeat split.
    + rewrite (pcie1_unparsed _ _ _ Hp). repeat split.
    + rewrite (inject_unparsed _ _ _ Hp). repeat split.
    + rewrite (fme_clear_unparsed _ _ _ Hp). repeat split.
    + rewrite (port_clear_unparsed _ _ _ Hp). repeat split.
  - intros buf count v Hp Hv Hgt x. subst x. cbn [store].
    rewrite (inject_out_of_range _ _ _ _ Hp Hv Hgt). repeat split.
Qed.

End Failures.

(* ================================================================== *)
(** ** Locking of the attribute reads *)

Section ReadLocking.

Context {E : dfl_env}.

(** C9, as the code has it.  Reading an attribute that reports an error
    register leaves the device as found.  The port's attributes (errors,
    first_error, first_malformed_req) take the port's lock, perform their
    loads and release it.  The FME's attributes (errors, first_error,
    next_error, pcie0_errors, pcie1_errors, nonfatal_errors,
    catfatal_errors, inject_error) perform one load and take no lock. *)
Theorem port_reads_locked_fme_reads_unlocked (a : read_attr) (s : hw E) :
  reads_register a = true ->
  let t := trace (show a s) in
  after (show a s) = s /\
  match read_attr_dev a with
  | PORT_DEV =>
      reads_locked false t = true /\
      hd_error t = Some (EvLock PORT_DEV) /\
      last t EvPortEnable = EvUnlock PORT_DEV
  | FME_DEV =>
      takes_lock t = false /\
      reads_locked false t = false /\
      exists r, t = [EvRead r (mmio s r)]
  end.
Proof.
  intros Ha t. subst t. split; [apply show_keeps_state |].
  destruct a; try discriminate Ha; cbn [read_attr_dev];
    repeat split; eexists; reflexivity.
Qed.

End ReadLocking.

(* ================================================================== *)
(** ** The theorems at work on the simulated platform *)

Section OnTheSimulatedPlatform.

Local Abbreviation run_clear k buf st r :=
  (clear (E := Sim.env) k buf 1 (Sim.dev st r)).

(** A port out of AP6 whose disable succeeds. *)
Lemma sim_port_reaches_compare : reaches_compare Port (Sim.dev 0 0).
Proof.
  split; [unfold in_ap6; vm_compute; discriminate | reflexivity].
Defined.

Example sim_port_clear_trace :
  trace (run_clear Port "5" 0 0) =
  [EvLock PORT_DEV; EvHdrRead 0x40 0; EvPortDisable 0;
   EvWrite (PORT_FEATURE_ID_ERROR, 0x8) 0xFFFFFFFFFFFFFFFF;
   EvRead (PORT_FEATURE_ID_ERROR, 0x10) 5;
   EvWrite (PORT_FEATURE_ID_ERROR, 0x10) 5;
   EvRead (PORT_FEATURE_ID_ERROR, 0x18) 5;
   EvWrite (PORT_FEATURE_ID_ERROR, 0x18) 5;
   EvWrite (PORT_FEATURE_ID_ERROR, 0x8) 0;
   EvPortEnable; EvUnlock PORT_DEV].
Proof. reflexivity. Qed.

Example sim_fme_clear_stale :
  result (run_clear FmeGlobal "4" 0 0) = -22 /\
  writes (trace (run_clear FmeGlobal "4" 0 0)) =
    [(FME_FEATURE_ID_GLOBAL_ERR, 0x8); (FME_FEATURE_ID_GLOBAL_ERR, 0x8)].
Proof. split; reflexivity. Qed.

Example sim_inject :
  mmio (after (FmeError.inject_error_store (E := Sim.env) "6" 1
                 (set_mmio (Sim.dev 0 0)
                    (FmeError.base, FmeRegs.RAS_ERROR_INJECT) 0xF1)))
       (FmeError.base, FmeRegs.RAS_ERROR_INJECT) = 0xF6.
Proof. reflexivity. Qed.

Lemma clear_succeeds_iff_status_matches_witness :
  kstrtou64 Sim.env "5" = Some 5 /\
  result (run_clear Port "5" 0 0) = 1 /\
  mmio (after (run_clear Port "5" 0 0)) (status_reg Port) = 0.
Proof.
  pose proof (clear_succeeds_iff_status_matches (E := Sim.env)
                Port "5" 1 5 (Sim.dev 0 0) eq_refl
                ltac:(lia) sim_port_reaches_compare) as H.
  cbv zeta in H. destruct H as (_ & Hiff & Hm & _).
  split; [reflexivity | split].
  - apply Hiff. reflexivity.
  - apply Hm. reflexivity.
Defined.

Lemma clear_restores_steady_mask_witness :
  kstrtou64 Sim.env "4" = Some 4 /\
  mmio (after (run_clear FmeGlobal "4" 0 0)) (mask_reg FmeGlobal)
  = steady_mask FmeGlobal (Sim.dev 0 0).
Proof.
  pose proof (clear_restores_steady_mask (E := Sim.env)
                FmeGlobal "4" 1 4 (Sim.dev 0 0) eq_refl I) as H.
  cbv zeta in H. destruct H as (_ & Hm & _).
  split; [reflexivity | exact Hm].
Defined.

Lemma port_clear_reenables_port_witness :
  kstrtou64 Sim.env "4" = Some 4 /\
  ~ in_ap6 (Sim.dev 0 0) /\
  port_in_reset Sim.env (port (after (run_clear Port "4" 0 0))) = false.
Proof.
  split; [reflexivity | split; [apply sim_port_reaches_compare |]].
  apply (proj2 (port_clear_reenables_port (E := Sim.env) "4" 1
                  (Sim.dev 0 0))
           4 eq_refl (proj1 sim_port_reaches_compare) eq_refl).
  reflexivity.
Defined.

Lemma port_clear_in_ap6_touches_nothing_witness :
  in_ap6 (Sim.dev 0x600 0) /\
  result (run_clear Port "5" 0x600 0) = - EBUSY /\
  after (run_clear Port "5" 0x600 0) = Sim.dev 0x600 0.
Proof.
  pose proof (port_clear_in_ap6_touches_nothing (E := Sim.env)
                "5" 1 5 (Sim.dev 0x600 0) eq_refl eq_refl) as H.
  cbv zeta in H. destruct H as (Hr & Hs & _).
  split; [reflexivity | split; assumption].
Defined.

Lemma port_clear_disable_failure_returns_at_once_witness :
  fst (__port_disable Sim.env (port (Sim.dev 0 (-110)))) = -110 /\
  result (run_clear Port "5" 0 (-110)) = -110 /\
  writes (trace (run_clear Port "5" 0 (-110))) = [].
Proof.
  pose proof (port_clear_disable_failure_returns_at_once (E := Sim.env)
                "5" 1 5 (-110) (Sim.dev 0 (-110)) eq_refl
                (proj1 sim_port_reaches_compare) eq_refl
                ltac:(discriminate)) as H.
  cbv zeta in H. destruct H as (Hr & _ & Hw & _).
  split; [reflexivity | split; assumption].
Defined.

Lemma successful_clear_write_set_witness :
  kstrtou64 Sim.env "5" = Some 5 /\
  writes (trace (run_clear Pcie0 "5" 0 0)) =
    [mask_reg Pcie0; status_reg Pcie0; mask_reg Pcie0].
Proof.
  split; [reflexivity |].
  apply (successful_clear_write_set (E := Sim.env)
           Pcie0 "5" 1 5 (Sim.dev 0 0) eq_refl I eq_refl).
Defined.

(** C2 as stated fails for the port: its successful clear also stores to
    the port's first-error register. *)
Lemma port_clear_stores_first_error :
  result (run_clear Port "5" 0 0) = 1 /\
  writes_within [mask_reg Port; status_reg Port]
    (trace (run_clear Port "5" 0 0)) = false /\
  written (AfuError.base_err, PortRegs.PORT_FIRST_ERROR)
    (trace (run_clear Port "5" 0 0)) = true.
Proof. repeat split. Qed.

Lemma fme_enable_sets_steady_masks_witness :
  kstrtou64 Sim.env "5" = Some 5 /\
  mmio (set_mmio (Sim.dev 0 0) (FmeError.base, FmeRegs.FME_ERROR_MASK) 7)
       (FmeError.base, FmeRegs.FME_ERROR_MASK) = 7 /\
  mmio (after (FmeError.fme_error_enable (E := Sim.env)
                 (set_mmio (Sim.dev 0 0)
                    (FmeError.base, FmeRegs.FME_ERROR_MASK) 7)))
       (FmeError.base, FmeRegs.FME_ERROR_MASK) = FmeRegs.MBP_ERROR /\
  mmio (after (FmeError.clear_store (E := Sim.env) "5" 1
                 (set_mmio (Sim.dev 0 0)
                    (FmeError.base, FmeRegs.FME_ERROR_MASK) 7)))
       (FmeError.base, FmeRegs.FME_ERROR_MASK) = FmeRegs.MBP_ERROR.
Proof.
  pose proof (fme_enable_sets_steady_masks (E := Sim.env)
                (set_mmio (Sim.dev 0 0)
                   (FmeError.base, FmeRegs.FME_ERROR_MASK) 7)) as H.
  cbv zeta in H. destruct H as (_ & _ & _ & _ & Hm & _ & Hc).
  split; [reflexivity | split; [reflexivity | split; [exact Hm |]]].
  destruct (Hc (set_mmio (Sim.dev 0 0)
                  (FmeError.base, FmeRegs.FME_ERROR_MASK) 7)
               "5"%string 1 5 eq_refl eq_refl eq_refl)
    as (_ & _ & _ & Hk & _).
  exact Hk.
Defined.

Lemma inject_error_store_replaces_low_bits_witness :
  kstrtou8 Sim.env "6" = Some 6 /\
  result (FmeError.inject_error_store (E := Sim.env) "6" 1 (Sim.dev 0 0))
  = 1.
Proof.
  pose proof (inject_error_store_replaces_low_bits (E := Sim.env)
                "6" 1 6 (Sim.dev 0 0) eq_refl ltac:(lia)) as H.
  cbv zeta in H. destruct H as [_ H].
  split; [reflexivity |].
  apply H. lia.
Defined.

Lemma failed_operations_leave_registers_witness :
  kstrtou64 Sim.env "7" = Some 7 /\
  result
    (clear (E := Sim.env) FmeGlobal "7" 1
       (after (AfuError.port_err_init
                 (after (FmeError.fme_error_enable (Sim.dev 0 0))))))
  = - EINVAL.
Proof.
  pose proof (failed_operations_leave_registers (E := Sim.env) _
                (reach_init (Sim.dev 0 0))) as H.
  destruct H as (Hm & _ & _).
  split; [reflexivity |].
  apply (Hm FmeGlobal "7"%string 1 7 eq_refl I).
  vm_compute. discriminate.
Defined.

Lemma port_reads_locked_fme_reads_unlocked_witness :
  reads_register port_errors = true /\
  reads_locked false
    (trace (show (E := Sim.env) port_errors (Sim.dev 0 0))) = true.
Proof.
  split; [reflexivity |].
  apply (port_reads_locked_fme_reads_unlocked (E := Sim.env)
           port_errors (Sim.dev 0 0) eq_refl).
Defined.

(** C9 as stated fails for the FME: [errors_show] loads [FME_ERROR]
    without taking the lock. *)
Lemma fme_errors_show_takes_no_lock :
  reads_register fme_errors = true /\
  trace (show (E := Sim.env) fme_errors (Sim.dev 0 0)) =
    [EvRead (FmeError.base, FmeRegs.FME_ERROR) 5] /\
  reads_locked false
    (trace (show (E := Sim.env) fme_errors (Sim.dev 0 0))) = false.
Proof. repeat split. Qed.

End OnTheSimulatedPlatform.
(* ================================================================== *)
(** ** Further properties of the attribute routines *)

Ltac unfold_stores :=
  unfold store, FmeError.pcie0_errors_store, FmeError.pcie1_errors_store,
    FmeError.inject_error_store, FmeError.clear_store,
    AfuError.clear_store, AfuError.__port_err_clear.

Ltac unfold_shows :=
  unfold show, FmeError.revision_show, FmeError.pcie0_errors_show,
    FmeError.pcie1_errors_show, FmeError.nonfatal_errors_show,
    FmeError.catfatal_errors_show, FmeError.inject_error_show,
    FmeError.errors_show, FmeError.first_error_show,
    FmeError.next_error_show, AfuError.revision_show, AfuError.errors_show,
    AfuError.first_error_show, AfuError.first_malformed_req_show.

Section StoreDiscipline.

Context {E : dfl_env}.

Lemma in_ap6_dec (s : hw E) : {in_ap6 s} + {~ in_ap6 s}.
Proof. unfold in_ap6. apply Z.eq_dec. Qed.

(** What a clear that gets to its compare step returns and leaves. *)
Lemma clear_at_compare
    (k : ErrorDomainKind) (buf : string) (count e : Z) (s : hw E) :
  kstrtou64 E buf = Some e ->
  reaches_compare k s ->
  result (clear k buf count s) =
    (if e =? mmio s (status_reg k) then count else - EINVAL) /\
  (e = mmio s (status_reg k) ->
   mmio (after (clear k buf count s)) (status_reg k) = 0) /\
  (e <> mmio s (status_reg k) ->
   mmio (after (clear k buf count s)) (status_reg k)
   = mmio s (status_reg k)).
Proof.
  intros Hp Hr.
  destruct (Z.eqb_spec e (mmio s (status_reg k))) as [Heq | Hne];
    destruct k; cbn [clear status_reg reaches_compare] in *.
  - destruct Hr as [Hap Hd].
    port_path (port_err_clear_match e s Hap Hd Heq).
    rewrite nonzero_0. split; [reflexivity | split; [intros _; solve_reg | contradiction]].
  - rewrite (fme_clear_match _ _ _ _ Hp Heq);
      cbn [result after trace fst snd].
    split; [reflexivity | split; [intros _; solve_reg | contradiction]].
  - rewrite (pcie0_match _ _ _ _ Hp Heq);
      cbn [result after trace fst snd].
    split; [reflexivity | split; [intros _; solve_reg | contradiction]].
  - rewrite (pcie1_match _ _ _ _ Hp Heq);
      cbn [result after trace fst snd].
    split; [reflexivity | split; [intros _; solve_reg | contradiction]].
  - destruct Hr as [Hap Hd].
    port_path (port_err_clear_mismatch e s Hap Hd Hne).
    rewrite nonzero_neg_EINVAL. split; [reflexivity | split; [contradiction | intros _; solve_reg]].
  - rewrite (fme_clear_mismatch _ _ _ _ Hp Hne);
      cbn [result after trace fst snd].
    split; [reflexivity | split; [contradiction | intros _; solve_reg]].
  - rewrite (pcie0_mismatch _ _ _ _ Hp Hne);
      cbn [result after trace fst snd].
    split; [reflexivity | split; [contradiction | intros _; solve_reg]].
  - rewrite (pcie1_mismatch _ _ _ _ Hp Hne);
      cbn [result after trace fst snd].
    split; [reflexivity | split; [contradiction | intros _; solve_reg]].
Qed.

(** X5.  Right after a successful clear of a domain, a further clear of
    that domain succeeds exactly when the value written is 0; any other
    value -- the one just cleared included, if nonzero -- is refused with
    [-EINVAL] and the status register stays 0. *)
Theorem cleared_domain_accepts_only_zero
    (k : ErrorDomainKind) (buf buf' : string) (count count' e e' : Z)
    (s : hw E) :
  kstrtou64 E buf = Some e ->
  reaches_compare k s ->
  e = mmio s (status_reg k) ->
  let s1 := after (clear k buf count s) in
  kstrtou64 E buf' = Some e' ->
  reaches_compare k s1 ->
  0 <= count' ->
  (result (clear k buf' count' s1) = count' <-> e' = 0) /\
  (e' <> 0 ->
   result (clear k buf' count' s1) = - EINVAL /\
   mmio (after (clear k buf' count' s1)) (status_reg k) = 0).
Proof.
  intros Hp Hr Heq s1 Hp' Hr' Hc.
  assert (Hzero : mmio s1 (status_reg k) = 0)
    by (apply (clear_at_compare k buf count e s Hp Hr); exact Heq).
  destruct (clear_at_compare k buf' count' e' s1 Hp' Hr') as (Hres & _ & Hk).
  rewrite Hzero in Hres, Hk.
  assert (Hcount : count' <> - EINVAL) by (unfold EINVAL; lia).
  destruct (Z.eqb_spec e' 0) as [He | He].
  - split; [tauto | contradiction].
  - split; [split; congruence |].
    intros _. split; [exact Hres | now apply Hk].
Qed.

(** What the stores of a writable attribute leave alone. *)
Lemma store_frame (a : write_attr) (buf : string) (count : Z) (s : hw E) :
  (forall b, ~ In b (owned a) ->
             mmio (after (store a buf count s)) b = mmio s b) /\
  revision (after (store a buf count s)) = revision s.
Proof.
  split.
  - intros b Hb.
    destruct a; unfold_stores; cbn [owned In] in *; crack;
      try reflexivity;
      match goal with
      | H : ioaddr_eqb ?c b = true |- _ =>
          exfalso; apply Hb;
          destruct (ioaddr_eqb_spec c b) as [Heq | _];
            [rewrite <- Heq; tauto | discriminate H]
      end.
  - destruct a; unfold_stores; crack; reflexivity.
Qed.

(** X1.  Whatever text is written to a writable attribute, and in
    whatever state, the routine takes and releases no lock but that of
    its own device, never takes it while holding it, performs every load,
    store, port disable or enable and error message while holding it, and
    has released it when it returns -- also on the AP6 and failed-disable
    returns of the port's clear.  The locked part of [port_err_init]
    obeys the same discipline. *)
Theorem stores_hold_the_lock
    (a : write_attr) (buf : string) (count : Z) (s : hw E) :
  well_locked (write_attr_dev a) false (trace (store a buf count s)) = true /\
  well_locked PORT_DEV false (trace (AfuError.port_err_init s)) = true.
Proof.
  split; [| reflexivity].
  destruct a; unfold_stores; cbn [write_attr_dev]; crack; reflexivity.
Qed.

(** X2.  Whatever text is written to a writable attribute, every store
    goes to a register the attribute owns (its mask, status and latch
    registers, or the inject register); every other error register, the
    revision, and -- except for the port's clear -- the port controller
    are as found. *)
Theorem stores_touch_only_owned_registers
    (a : write_attr) (buf : string) (count : Z) (s : hw E) :
  let x := store a buf count s in
  writes_within (owned a) (trace x) = true /\
  (forall b, ~ In b (owned a) -> mmio (after x) b = mmio s b) /\
  revision (after x) = revision s /\
  (a <> port_clear -> port (after x) = port s).
Proof.
  intros x. subst x.
  split; [| split; [apply store_frame | split; [apply store_frame |]]].
  - destruct a; unfold_stores; cbn [owned]; crack; reflexivity.
  - intros Ha. destruct a; try congruence; unfold_stores; crack; reflexivity.
Qed.



(** X3.  After a clear whose value matched, every readable attribute
    that reports a latch of the cleared domain (errors, first_error,
    next_error for the FME; errors, first_error for the port; pcie0_errors;
    pcie1_errors) reads 0, and every other readable attribute of both
    devices reads what it read before. *)
Theorem successful_clear_zeroes_own_latches
    (k : ErrorDomainKind) (buf : string) (count e : Z) (s : hw E)
    (a : read_attr) :
  kstrtou64 E buf = Some e ->
  reaches_compare k s ->
  e = mmio s (status_reg k) ->
  result (show a (after (clear k buf count s))) =
    if cleared_by k a then [0] else result (show a s).
Proof.
  intros Hp Hr Heq.
  destruct k; cbn [clear status_reg reaches_compare] in *.
  - destruct Hr as [Hap Hd].
    port_path (port_err_clear_match e s Hap Hd Heq).
    destruct a; cbn [cleared_by]; unfold_shows; solve_reg.
  - rewrite (fme_clear_match _ _ _ _ Hp Heq);
      cbn [result after trace fst snd].
    destruct a; cbn [cleared_by]; unfold_shows; solve_reg.
  - rewrite (pcie0_match _ _ _ _ Hp Heq);
      cbn [result after trace fst snd].
    destruct a; cbn [cleared_by]; unfold_shows; solve_reg.
  - rewrite (pcie1_match _ _ _ _ Hp Heq);
      cbn [result after trace fst snd].
    destruct a; cbn [cleared_by]; unfold_shows; solve_reg.
Qed.

(** X4.  A clear that does not get to a matching compare (unparsable
    text, AP6, failed port disable, or a value different from the status
    register) changes what no readable attribute reports. *)
Theorem unsuccessful_clear_is_invisible
    (k : ErrorDomainKind) (buf : string) (count : Z) (s : hw E) :
  (forall e, kstrtou64 E buf = Some e -> reaches_compare k s ->
             e <> mmio s (status_reg k)) ->
  forall a, result (show a (after (clear k buf count s)))
            = result (show a s).
Proof.
  intros H a.
  destruct (kstrtou64 E buf) as [e |] eqn:Hp.
  - specialize (H e eq_refl).
    destruct k; cbn [clear status_reg reaches_compare] in *.
    + destruct (in_ap6_dec s) as [Hap | Hap].
      { port_path (port_err_clear_ap6 e s Hap). reflexivity. }
      destruct (Z.eq_dec (fst (__port_disable E (port s))) 0) as [Hd | Hd].
      * port_path (port_err_clear_mismatch e s Hap Hd (H (conj Hap Hd))).
        destruct a; unfold_shows; solve_reg.
      * port_path (port_err_clear_disable_failed e s Hap Hd).
        destruct a; unfold_shows; solve_reg.
    + rewrite (fme_clear_mismatch _ _ _ _ Hp (H I));
        cbn [result after trace fst snd].
      destruct a; unfold_shows; solve_reg.
    + rewrite (pcie0_mismatch _ _ _ _ Hp (H I));
        cbn [result after trace fst snd].
      destruct a; unfold_shows; solve_reg.
    + rewrite (pcie1_mismatch _ _ _ _ Hp (H I));
        cbn [result after trace fst snd].
      destruct a; unfold_shows; solve_reg.
  - destruct k; cbn [clear].
    + now rewrite (port_clear_unparsed _ _ _ Hp).
    + now rewrite (fme_clear_unparsed _ _ _ Hp).
    + now rewrite (pcie0_unparsed _ _ _ Hp).
    + now rewrite (pcie1_unparsed _ _ _ Hp).
Qed.


Lemma show_status (k : ErrorDomainKind) (s : hw E) :
  result (show (status_attr k) s) = [mmio s (status_reg k)].
Proof. destruct k; reflexivity. Qed.

(** X6.  If the status attribute of a domain reads [v] and that value is
    written to the clear endpoint, the clear succeeds and the attribute
    then reads 0, provided the transaction gets to its compare step.  If
    the hardware has latched a different value [v'] in between, the clear
    is refused with [-EINVAL] and the attribute still reads [v']: a fault
    not yet read is not cleared. *)
Theorem snapshot_then_clear
    (k : ErrorDomainKind) (buf : string) (count v : Z) (s : hw E) :
  result (show (status_attr k) s) = [v] ->
  kstrtou64 E buf = Some v ->
  0 <= count ->
  (reaches_compare k s ->
   let x := clear k buf count s in
   result x = count /\ result (show (status_attr k) (after x)) = [0]) /\
  (forall v', v' <> v ->
   let s' := set_mmio s (status_reg k) v' in
   reaches_compare k s' ->
   let x := clear k buf count s' in
   result x = - EINVAL /\ result (show (status_attr k) (after x)) = [v']).
Proof.
  intros Hshow Hp Hc. rewrite show_status in Hshow.
  injection Hshow as Hv. split.
  - intros Hr x. subst x.
    destruct (clear_at_compare k buf count v s Hp Hr) as (Hres & Hz & _).
    rewrite <- Hv, Z.eqb_refl in Hres.
    rewrite show_status, Hz by congruence. now split.
  - intros v' Hne s' Hr x. subst x.
    assert (Hs : mmio s' (status_reg k) = v').
    { subst s'. cbn [mmio set_mmio].
      now destruct (ioaddr_eqb_spec (status_reg k) (status_reg k)). }
    destruct (clear_at_compare k buf count v s' Hp Hr) as (Hres & _ & Hk).
    rewrite Hs in Hres, Hk.
    rewrite (eqb_false v v') in Hres by congruence.
    rewrite show_status, Hk by congruence. now split.
Qed.

(** *** Fault injection *)

Lemma FIELD_GET_inject (x : Z) :
  FIELD_GET FmeRegs.INJECT_ERROR_MASK x = Z.land x (Z.ones 3).
Proof.
  unfold FIELD_GET.
  change (__bf_shf FmeRegs.INJECT_ERROR_MASK) with 0.
  now rewrite Z.shiftr_0_r.
Qed.

Lemma low3_small (v : Z) : 0 <= v <= 7 -> Z.land v (Z.ones 3) = v.
Proof.
  intros Hv. rewrite Z.land_ones by lia.
  change (2 ^ 3) with 8. apply Z.mod_small. lia.
Qed.

(** X7.  After [inject_error_store] has accepted a value [v] in 0..7,
    reading inject_error yields [v], and every other readable attribute
    reads what it read before. *)
Theorem inject_error_round_trip
    (buf : string) (count v : Z) (s : hw E) (a : read_attr) :
  kstrtou8 E buf = Some v ->
  0 <= v <= 7 ->
  let s1 := after (FmeError.inject_error_store buf count s) in
  result (show a s1) =
    match a with
    | fme_inject_error => [v]
    | _ => result (show a s)
    end.
Proof.
  intros Hp Hv s1. subst s1.
  rewrite (inject_in_range _ _ _ _ Hp Hv). cbn [result after trace fst snd].
  destruct a; unfold_shows; solve_reg.
  f_equal.
  rewrite FIELD_GET_inject, FIELD_PREP_inject, Z.land_lor_distr_l.
  rewrite <- (Z.land_assoc _ (not64 FmeRegs.INJECT_ERROR_MASK)).
  change (Z.land (not64 FmeRegs.INJECT_ERROR_MASK) (Z.ones 3)) with 0.
  rewrite Z.land_0_r, Z.lor_0_l.
  now rewrite (low3_small v Hv), (low3_small v Hv).
Qed.

(** X8.  [inject_error_show] reports a value in 0..7, the content of the
    inject register modulo 8, with one load, no lock, and no change of
    state. *)
Theorem inject_error_show_in_range (s : hw E) :
  let x := FmeError.inject_error_show s in
  let inj := (FmeError.base, FmeRegs.RAS_ERROR_INJECT) in
  0 <= result x <= 7 /\
  result x = mmio s inj mod 8 /\
  after x = s /\
  trace x = [EvRead inj (mmio s inj)].
Proof.
  intros x inj. subst x inj. unfold FmeError.inject_error_show. run_drv.
  rewrite FIELD_GET_inject, Z.land_ones by lia. change (2 ^ 3) with 8.
  pose proof (Z.mod_pos_bound
                (mmio s (FmeError.base, FmeRegs.RAS_ERROR_INJECT)) 8).
  repeat split; lia.
Qed.

End StoreDiscipline.

(* ================================================================== *)
(** ** Invariants of the register file *)

Lemma u64_iff (x : Z) : 0 <= x < 2 ^ 64 <-> Z.land x (Z.ones 64) = x.
Proof.
  rewrite Z.land_ones by lia. split.
  - intros H. now apply Z.mod_small.
  - intros H. rewrite <- H. apply Z.mod_pos_bound. lia.
Qed.

Lemma u64_ldiff (x y : Z) : 0 <= x < 2 ^ 64 -> 0 <= Z.ldiff x y < 2 ^ 64.
Proof.
  intros H. apply u64_iff. apply u64_iff in H.
  rewrite Z.ldiff_land, <- Z.land_assoc, (Z.land_comm (Z.lnot y)),
    Z.land_assoc.
  now rewrite H.
Qed.

Lemma u64_land_l (x y : Z) : 0 <= x < 2 ^ 64 -> 0 <= Z.land x y < 2 ^ 64.
Proof.
  intros H. apply u64_iff. apply u64_iff in H.
  rewrite <- Z.land_assoc, (Z.land_comm y), Z.land_assoc.
  now rewrite H.
Qed.

Lemma u64_lor (x y : Z) :
  0 <= x < 2 ^ 64 -> 0 <= y < 2 ^ 64 -> 0 <= Z.lor x y < 2 ^ 64.
Proof.
  intros Hx Hy. apply u64_iff. apply u64_iff in Hx, Hy.
  now rewrite Z.land_lor_distr_l, Hx, Hy.
Qed.

Lemma u64_FIELD_PREP_inject (v : Z) :
  0 <= FIELD_PREP FmeRegs.INJECT_ERROR_MASK v < 2 ^ 64.
Proof.
  rewrite FIELD_PREP_inject, Z.land_ones by lia.
  pose proof (Z.mod_pos_bound v (2 ^ 3)). lia.
Qed.

(** Bound the value an address holds after a run. *)
Ltac solve_u64 H :=
  first
    [ apply H
    | apply u64_ldiff; apply H
    | apply u64_lor; [apply u64_land_l; apply H | apply u64_FIELD_PREP_inject]
    | split; [intros Hc; vm_compute in Hc; discriminate Hc
             | vm_compute; reflexivity] ].

Section RegisterInvariants.

Context {E : dfl_env}.

(** X9.  If every error register holds a 64-bit value, it still does
    after any write to any writable attribute, any read of a readable
    attribute, [fme_error_enable] and the locked part of [port_err_init]:
    no routine stores a value that does not fit its register. *)
Theorem routines_keep_registers_64bit (s : hw E) :
  regs_u64 s ->
  (forall a buf count, regs_u64 (after (store a buf count s))) /\
  (forall a, regs_u64 (after (show a s))) /\
  regs_u64 (after (FmeError.fme_error_enable s)) /\
  regs_u64 (after (AfuError.port_err_init s)).
Proof.
  intros H. split; [| split; [| split]].
  - intros a buf count b.
    destruct a; unfold_stores; crack; solve_u64 H.
  - intros a. now rewrite show_keeps_state.
  - intros b. unfold FmeError.fme_error_enable. crack; solve_u64 H.
  - intros b. unfold AfuError.port_err_init. crack; solve_u64 H.
Qed.

Lemma latch_keeps_ras_masks (a : ioaddr) (v : Z) (s : hw E) (m : ioaddr) :
  is_w1c a = true -> is_w1c m = false -> mmio (set_mmio s a v) m = mmio s m.
Proof.
  intros Ha Hm. cbn [mmio set_mmio].
  destruct (ioaddr_eqb_spec a m) as [Heq | _]; [congruence | reflexivity].
Qed.

(** X10.  In every state the devices can be in after initialisation, all
    six error masks hold their steady values: the FME mask 0 or
    [MBP_ERROR] by revision, the PCIe0, PCIe1, RAS non-fatal, RAS
    catastrophic/fatal and port masks 0. *)
Theorem reachable_all_masks_steady (s : hw E) :
  reachable s -> all_masks_steady s.
Proof.
  intros Hr. split; [now apply reachable_masks_steady |].
  induction Hr as [s0 | a s _ IH | a buf count s _ IH | a v s Ha _ IH
                   | p s _ IH].
  - unfold AfuError.port_err_init, FmeError.fme_error_enable.
    split; solve_reg.
  - now rewrite show_keeps_state.
  - destruct (store_frame a buf count s) as [Hf _].
    rewrite !Hf; [exact IH | |];
      destruct a; cbn [owned In]; intros Hin;
      repeat (destruct Hin as [Hin | Hin]; [discriminate Hin |]);
      exact Hin.
  - rewrite !latch_keeps_ras_masks by (exact Ha || reflexivity). exact IH.
  - exact IH.
Qed.

End RegisterInvariants.

(* ================================================================== *)
(** ** Feature set-up and tear-down *)

Ltac run_life :=
  unfold Lifecycle.fme_global_err_init, Lifecycle.fme_global_err_uinit,
    Lifecycle.port_err_init, Lifecycle.port_err_uinit,
    FmeError.fme_error_enable, AfuError.port_err_init;
  repeat (progress (
    unfold Lifecycle.kbind, Lifecycle.kret, Lifecycle.kdo, Lifecycle.lift,
      Lifecycle.kresult, Lifecycle.kafter, Lifecycle.ktrace;
    run_drv;
    cbn [map app fst snd negb Lifecycle.kzalloc_ok
         Lifecycle.device_register_ret Lifecycle.sysfs_create_groups_ret
         Lifecycle.sysfs_create_group_ret])).

Section SetUp.

Context {E : dfl_env}.
Import Lifecycle.

(** X11.  [fme_global_err_init] returns 0 exactly when the allocation,
    [device_register] and [sysfs_create_groups] all succeed.  A failed
    allocation gives [-ENOMEM] with no hardware access.  Otherwise the
    result is the first nonzero return of the two calls; the device
    reference is dropped once on failure and not at all on success, and
    [feature->priv] is set on success only. *)
Theorem fme_init_result_and_cleanup (o : outcomes) (s : hw E) :
  let x := fme_global_err_init o s in
  (kresult x = 0 <->
   kzalloc_ok o = true /\ device_register_ret o = 0 /\
   sysfs_create_groups_ret o = 0) /\
  (kzalloc_ok o = false ->
   kresult x = - ENOMEM /\ kafter x = s /\ hw_actions (ktrace x) = [] /\
   releases (ktrace x) = 0%nat) /\
  (kzalloc_ok o = true ->
   (device_register_ret o <> 0 -> kresult x = device_register_ret o) /\
   (device_register_ret o = 0 -> kresult x = sysfs_create_groups_ret o) /\
   releases (ktrace x) = (if kresult x =? 0 then 0%nat else 1%nat) /\
   count_call is_set_priv (ktrace x) = (if kresult x =? 0 then 1%nat else 0%nat)).
Proof.
  intros x. subst x.
  destruct o as [ok r1 r2 r3]; cbn [kzalloc_ok device_register_ret
    sysfs_create_groups_ret].
  destruct ok.
  - run_life. unfold nonzero.
    destruct (Z.eqb_spec r1 0) as [H1 | H1]; cbn [negb]; run_life.
    + destruct (Z.eqb_spec r2 0) as [H2 | H2]; cbn [negb]; run_life.
      * subst. repeat split; try discriminate; try reflexivity; tauto.
      * rewrite (eqb_false _ _ H2).
        repeat split; try discriminate; try reflexivity; try tauto;
          intros; tauto.
    + rewrite (eqb_false _ _ H1).
      repeat split; try discriminate; try reflexivity; try tauto;
        intros; tauto.
  - run_life.
    repeat split; try discriminate; try reflexivity; intros; try tauto.
    destruct H as [H _]; discriminate H.
Qed.

(** X12.  When the allocation succeeds, [fme_global_err_init] performs
    exactly the stores of [fme_error_enable], all of them before
    [device_register]; the FME, PCIe0, PCIe1 and RAS masks hold their
    steady values on return, whether registration then succeeds or
    not. *)
Theorem fme_init_enables_before_registering (o : outcomes) (s : hw E) :
  kzalloc_ok o = true ->
  let x := fme_global_err_init o s in
  hw_actions (ktrace x) = trace (FmeError.fme_error_enable s) /\
  hw_after_publish (ktrace x) = [] /\
  kafter x = after (FmeError.fme_error_enable s) /\
  (forall k, k <> Port -> mmio (kafter x) (mask_reg k) = steady_mask k s) /\
  mmio (kafter x) (FmeError.base, FmeRegs.RAS_NONFAT_ERROR_MASK) = 0 /\
  mmio (kafter x) (FmeError.base, FmeRegs.RAS_CATFAT_ERROR_MASK) = 0.
Proof.
  intros Hok x. subst x.
  destruct o as [ok r1 r2 r3]; cbn [kzalloc_ok] in Hok; subst ok.
  run_life. unfold nonzero.
  destruct (r1 =? 0); cbn [negb]; run_life;
    [destruct (r2 =? 0); cbn [negb]; run_life |];
    (split; [reflexivity | split; [reflexivity | split; [reflexivity |]]]);
    (split; [intros k Hk; destruct k; try congruence;
             cbn [mask_reg steady_mask]; solve_reg
            | split; reflexivity]).
Qed.

(** X13.  A successful [fme_global_err_init] followed by
    [fme_global_err_uinit] allocates one device and drops its reference
    once, creates the attribute groups once and removes them once; the
    tear-down accesses no register, so the masks stay as enabled. *)
Theorem fme_init_then_uinit_is_balanced (o : outcomes) (s : hw E) :
  kresult (fme_global_err_init o s) = 0 ->
  let x := fme_global_err_init o s in
  let y := fme_global_err_uinit (kafter x) in
  let t := ktrace x ++ ktrace y in
  count_call is_alloc t = 1%nat /\
  count_call is_groups_created t = 1%nat /\
  count_call is_groups_removed t = 1%nat /\
  releases t = 1%nat /\
  hw_actions (ktrace y) = [] /\
  kafter y = kafter x.
Proof.
  intros Hres x y t. subst t y x. revert Hres.
  destruct o as [ok r1 r2 r3].
  destruct ok; run_life; [| discriminate].
  unfold nonzero.
  destruct (Z.eqb_spec r1 0) as [H1 | H1]; cbn [negb]; run_life;
    [| intros Hres; congruence].
  destruct (Z.eqb_spec r2 0) as [H2 | H2]; cbn [negb]; run_life;
    [| intros Hres; congruence].
  intros _. subst r1 r2. repeat split.
Qed.

(** X14.  [port_err_init] returns what [sysfs_create_group] returns; in
    either case the port error mask is 0 afterwards and no other error
    register has changed; the store is done under the port's lock and
    before the group is created.  [port_err_uinit] accesses no
    register. *)
Theorem port_init_unmasks_before_publishing (o : outcomes) (s : hw E) :
  let x := port_err_init o s in
  let y := port_err_uinit (kafter x) in
  let mask := (AfuError.base_err, PortRegs.PORT_ERROR_MASK) in
  kresult x = sysfs_create_group_ret o /\
  mmio (kafter x) mask = 0 /\
  (forall b, b <> mask -> mmio (kafter x) b = mmio s b) /\
  well_locked PORT_DEV false (hw_actions (ktrace x)) = true /\
  hw_after_publish (ktrace x) = [] /\
  hw_actions (ktrace y) = [] /\
  kafter y = kafter x.
Proof.
  intros x y mask. subst y x mask. run_life.
  split; [reflexivity | split; [reflexivity | split]].
  - intros b Hb.
    destruct (ioaddr_eqb_spec (AfuError.base_err, PortRegs.PORT_ERROR_MASK) b)
      as [Heq | _]; [congruence | reflexivity].
  - repeat split.
Qed.

End SetUp.

(* ================================================================== *)
(** ** The further properties on the simulated platform *)

Section FurtherOnTheSimulatedPlatform.

Import Lifecycle.

Lemma sim_regs_u64 : regs_u64 (Sim.dev 0 0).
Proof.
  intros a. unfold Sim.dev, Sim.regs. cbn [mmio].
  destruct (is_w1c a);
    [| destruct (ioaddr_eqb a (FmeError.base, FmeRegs.FME_ERROR_MASK))];
    (split; [intros Hc; vm_compute in Hc; discriminate Hc
            | vm_compute; reflexivity]).
Defined.

Lemma successful_clear_zeroes_own_latches_witness :
  kstrtou64 Sim.env "5" = Some 5 /\
  result (show (E := Sim.env) fme_next_error
            (after (clear FmeGlobal "5" 1 (Sim.dev 0 0)))) = [0].
Proof.
  split; [reflexivity |].
  exact (successful_clear_zeroes_own_latches (E := Sim.env)
           FmeGlobal "5" 1 5 (Sim.dev 0 0) fme_next_error eq_refl I eq_refl).
Defined.

Lemma unsuccessful_clear_is_invisible_witness :
  kstrtou64 Sim.env "7" = Some 7 /\
  result (show (E := Sim.env) fme_errors
            (after (clear FmeGlobal "7" 1 (Sim.dev 0 0)))) = [5].
Proof.
  split; [reflexivity |].
  rewrite (unsuccessful_clear_is_invisible (E := Sim.env)
             FmeGlobal "7" 1 (Sim.dev 0 0)).
  - reflexivity.
  - intros e He _. vm_compute in He. injection He as <-.
    vm_compute. discriminate.
Defined.

Lemma cleared_domain_accepts_only_zero_witness :
  kstrtou64 Sim.env "5" = Some 5 /\
  result (clear (E := Sim.env) Pcie0 "5" 1
            (after (clear Pcie0 "5" 1 (Sim.dev 0 0)))) = - EINVAL.
Proof.
  split; [reflexivity |].
  apply (cleared_domain_accepts_only_zero (E := Sim.env)
           Pcie0 "5" "5" 1 1 5 5 (Sim.dev 0 0) eq_refl I eq_refl eq_refl I
           ltac:(discriminate)).
  discriminate.
Defined.

Lemma snapshot_then_clear_witness :
  result (show (E := Sim.env) (status_attr FmeGlobal) (Sim.dev 0 0)) = [5] /\
  result (clear (E := Sim.env) FmeGlobal "5" 1 (Sim.dev 0 0)) = 1.
Proof.
  split; [reflexivity |].
  apply (snapshot_then_clear (E := Sim.env) FmeGlobal "5" 1 5 (Sim.dev 0 0)
           eq_refl eq_refl ltac:(discriminate)).
  exact I.
Defined.

Lemma inject_error_round_trip_witness :
  kstrtou8 Sim.env "6" = Some 6 /\
  result (show (E := Sim.env) fme_inject_error
            (after (FmeError.inject_error_store "6" 1 (Sim.dev 0 0)))) = [6].
Proof.
  split; [reflexivity |].
  pose proof (inject_error_round_trip (E := Sim.env) "6" 1 6 (Sim.dev 0 0)
                fme_inject_error eq_refl ltac:(lia)) as H.
  exact H.
Defined.

Lemma routines_keep_registers_64bit_witness :
  regs_u64 (Sim.dev 0 0) /\
  regs_u64 (after (store (E := Sim.env) fme_clear "5" 1 (Sim.dev 0 0))).
Proof.
  split; [exact sim_regs_u64 |].
  apply (routines_keep_registers_64bit (E := Sim.env) (Sim.dev 0 0)
           sim_regs_u64).
Defined.

Lemma reachable_all_masks_steady_witness :
  all_masks_steady
    (after (AfuError.port_err_init (E := Sim.env)
              (after (FmeError.fme_error_enable (Sim.dev 0 0))))).
Proof.
  apply (reachable_all_masks_steady (E := Sim.env)). apply reach_init.
Defined.

Lemma fme_init_result_and_cleanup_witness :
  kresult (fme_global_err_init (E := Sim.env)
             {| kzalloc_ok := false; device_register_ret := 0;
                sysfs_create_groups_ret := 0; sysfs_create_group_ret := 0 |}
             (Sim.dev 0 0)) = - ENOMEM.
Proof.
  apply (fme_init_result_and_cleanup (E := Sim.env)
           {| kzalloc_ok := false; device_register_ret := 0;
              sysfs_create_groups_ret := 0; sysfs_create_group_ret := 0 |}
           (Sim.dev 0 0)).
  reflexivity.
Defined.

Lemma fme_init_enables_before_registering_witness :
  hw_after_publish
    (ktrace (fme_global_err_init (E := Sim.env)
               {| kzalloc_ok := true; device_register_ret := -16;
                  sysfs_create_groups_ret := 0; sysfs_create_group_ret := 0 |}
               (Sim.dev 0 0))) = [].
Proof.
  apply (fme_init_enables_before_registering (E := Sim.env)
           {| kzalloc_ok := true; device_register_ret := -16;
              sysfs_create_groups_ret := 0; sysfs_create_group_ret := 0 |}
           (Sim.dev 0 0) eq_refl).
Defined.

Lemma fme_init_then_uinit_is_balanced_witness :
  releases
    (ktrace (fme_global_err_init (E := Sim.env)
               {| kzalloc_ok := true; device_register_ret := 0;
                  sysfs_create_groups_ret := 0; sysfs_create_group_ret := 0 |}
               (Sim.dev 0 0))
     ++ ktrace (fme_global_err_uinit (E := Sim.env)
                  (kafter (fme_global_err_init
                             {| kzalloc_ok := true; device_register_ret := 0;
                                sysfs_create_groups_ret := 0;
                                sysfs_create_group_ret := 0 |}
                             (Sim.dev 0 0))))) = 1%nat.
Proof.
  apply (fme_init_then_uinit_is_balanced (E := Sim.env)
           {| kzalloc_ok := true; device_register_ret := 0;
              sysfs_create_groups_ret := 0; sysfs_create_group_ret := 0 |}
           (Sim.dev 0 0) eq_refl).
Defined.

End FurtherOnTheSimulatedPlatform.
